(** * csv_to_wax_json: the row-normalisation pipeline of kick-wax-helper

    A shallow embedding of [csv_to_wax_json.py] and the properties of its
    field parsers ([parse_number], [parse_bool], [build_temp_range],
    [make_id]), of the record assembler (the body of the [for row in reader]
    loop of [main]) and of the driver ([main]).

    Python values are modelled as the program has them:
    - a [str] is a sequence of Unicode code points;
    - [None] is the [None] of [option];
    - a [float] is an IEEE 754 binary64 value, given by the standard
      library's [spec_float] at precision 53 and maximal exponent 1024;
    - an [int] is an unbounded integer;
    - a row of [csv.DictReader] is a finite map from column names to values
      that are a string or [None] (the reader's [restval] of a short line);
    - a raised exception is the [Raise] of an error monad. *)

From Stdlib Require Import ZArith NArith List Bool Lia Ascii String.
From Stdlib Require Import SpecFloat DecimalString DecimalNat.
From stdpp Require Import base option list strings gmap.

#[local] Open Scope N_scope.

(** ** Text *)

(** A code point, and a Python [str]. *)
Abbreviation codepoint := N.
Abbreviation str := (list codepoint).

(** The [str] of an ASCII literal of the source. *)
Definition lit (s : string) : str :=
  map N_of_ascii (list_ascii_of_string s).
Arguments lit : simpl never.

Definition MINUS_SIGN : codepoint := 0x2212.   (* "−" *)
Definition DEGREE_SIGN : codepoint := 0xB0.    (* "°" *)
Definition EN_DASH : codepoint := 0x2013.      (* "–" *)

(** [str.isspace] on one code point: the white space that [str.strip()]
    removes (Py_UNICODE_ISSPACE). *)
Definition isspace (c : codepoint) : bool :=
  ((9 <=? c) && (c <=? 13)) || ((28 <=? c) && (c <=? 32))
  || (c =? 0x85) || (c =? 0xA0) || (c =? 0x1680)
  || ((0x2000 <=? c) && (c <=? 0x200A))
  || (c =? 0x2028) || (c =? 0x2029) || (c =? 0x202F)
  || (c =? 0x205F) || (c =? 0x3000).

Fixpoint lstrip_by (sp : codepoint -> bool) (s : str) : str :=
  match s with
  | c :: r => if sp c then lstrip_by sp r else s
  | [] => []
  end.

Definition rstrip_by (sp : codepoint -> bool) (s : str) : str :=
  rev (lstrip_by sp (rev s)).

(** [s.strip()] *)
Definition strip (s : str) : str := rstrip_by isspace (lstrip_by isspace s).

(** [s.replace(a, b)] for one-character [a] and [b], and [s.replace(a, "")]. *)
Definition replace_char (a b : codepoint) (s : str) : str :=
  map (fun c => if c =? a then b else c) s.

Definition remove_char (a : codepoint) (s : str) : str :=
  List.filter (fun c => negb (c =? a)) s.

Definition is_upper_ascii (c : codepoint) : bool := (65 <=? c) && (c <=? 90).
Definition ascii_lower (c : codepoint) : codepoint :=
  if is_upper_ascii c then c + 32 else c.

(** The tables of the interpreter's Unicode database that the program
    reaches through [str.lower()] and [float()].  They belong to the Python
    runtime, not to the repository, and only concern code points outside
    ASCII: [tolower_full s i] is the lower-casing of the code point at
    position [i] of [s] (one to three code points, and dependent on the
    neighbours for the capital sigma), [todecimal c] the value, from 0 to 9,
    of [c] when it is a decimal digit. *)
Class unicode_db := {
  tolower_full : str -> nat -> str;
  todecimal : codepoint -> option N
}.

(** The tables below U+0100 (the capitals of Latin-1 are 32 below their
    small letters; no digit other than the ASCII ones).  Code points further
    up are left as they are, which is what Python does with the minus sign
    U+2212 and the en dash U+2013. *)
Definition latin1_db : unicode_db := {|
  tolower_full s i :=
    match nth_error s i with
    | Some c => if (0xC0 <=? c) && (c <=? 0xDE) && negb (c =? 0xD7)
                then [c + 32] else [c]
    | None => []
    end;
  todecimal c := None
|}.

Section Text.
Context {U : unicode_db}.

Fixpoint lower_from (whole : str) (i : nat) (rest : str) : str :=
  match rest with
  | [] => []
  | c :: r =>
      (if c <? 128 then [ascii_lower c] else tolower_full whole i)
      ++ lower_from whole (S i) r
  end.

(** [s.lower()] *)
Definition lower (s : str) : str := lower_from s 0 s.

End Text.

(** [x or y] on strings that may be [None]: [x] when it is truthy (neither
    [None] nor empty), else [y]. *)
Definition truthy (x : option str) : bool :=
  match x with
  | Some (_ :: _) => true
  | _ => false
  end.

Definition py_or (x y : option str) : option str := if truthy x then x else y.

(** [str(n)] of a natural number, as in [f"prod_{n}"]. *)
Definition str_of_nat (n : nat) : str :=
  lit (NilZero.string_of_uint (Nat.to_uint n)).

(** The code point of an ASCII character of the source. *)
Definition chr (a : ascii) : codepoint := N_of_ascii a.
Arguments chr : simpl never.

Fixpoint str_eqb (s t : str) : bool :=
  match s, t with
  | [], [] => true
  | c :: s', d :: t' => (c =? d) && str_eqb s' t'
  | _, _ => false
  end.

(** ** Exceptions *)

Inductive exn :=
  | AttributeError      (* a method called on [None] *)
  | ValueError
  | OverflowError
  | FileNotFoundError.

Inductive res (A : Type) :=
  | Ok (a : A)
  | Raise (e : exn).
Arguments Ok {A} a.
Arguments Raise {A} e.

#[global] Instance res_ret : MRet res := fun _ a => Ok a.
#[global] Instance res_bind : MBind res := fun _ _ k m =>
  match m with
  | Ok a => k a
  | Raise e => Raise e
  end.

(** ** Numbers *)

(** What [parse_number] returns besides [None]: an [int] or a [float]. *)
Inductive number :=
  | PyInt (z : Z)
  | PyFloat (f : spec_float).

(** binary64 *)
Definition prec : Z := 53.
Definition emax : Z := 1024.

(** [x.is_integer()] *)
Definition float_is_integer (x : spec_float) : bool :=
  match x with
  | S754_zero _ => true
  | S754_finite _ m e =>
      ((0 <=? e) || (Z.pos m mod 2 ^ (- e) =? 0))%Z
  | S754_infinity _ | S754_nan => false
  end.

(** [int(x)] of a float: truncation toward zero; infinities and NaN raise. *)
Definition int_of_float (x : spec_float) : res Z :=
  match x with
  | S754_zero _ => Ok 0%Z
  | S754_finite s m e =>
      Ok (cond_Zopp s (if (0 <=? e)%Z then Z.pos m * 2 ^ e
                       else Z.pos m / 2 ^ (- e)))%Z
  | S754_infinity _ => Raise OverflowError
  | S754_nan => Raise ValueError
  end.

(** [int(v)] of a number. *)
Definition int_of_number (v : number) : res Z :=
  match v with
  | PyInt z => Ok z
  | PyFloat f => int_of_float f
  end.

(** A decimal numeral [(-1)^neg * digits * 10^exp10], [digits >= 0]. *)
Record decimal := { dec_neg : bool; dec_digits : Z; dec_exp10 : Z }.

(** The binary64 value nearest to a decimal numeral, ties to even, as
    [float()] computes it (correctly rounded; an overflow gives an infinity
    and an underflow a signed zero).  The quotient of the two integers is
    taken with enough bits and the position of the remainder, and rounded
    once. *)
Definition float_of_decimal (d : decimal) : spec_float :=
  match dec_digits d with
  | Z0 => S754_zero (dec_neg d)
  | n =>
      let num := (n * 10 ^ Z.max (dec_exp10 d) 0)%Z in
      let den := (10 ^ Z.max (- dec_exp10 d) 0)%Z in
      let '(q, e, l) := SFdiv_core_binary prec emax num 0 den 0 in
      binary_round_aux prec emax (dec_neg d) q e l
  end.

Definition is_digit (c : codepoint) : bool := (48 <=? c) && (c <=? 57).

(** The white space of the C locale (Py_ISSPACE), which [float()] strips. *)
Definition c_isspace (c : codepoint) : bool :=
  ((9 <=? c) && (c <=? 13)) || (c =? 32).

Fixpoint span (p : codepoint -> bool) (s : str) : str * str :=
  match s with
  | c :: r => if p c then let '(a, b) := span p r in (c :: a, b) else ([], s)
  | [] => ([], [])
  end.

Definition digits_value (ds : str) : Z :=
  fold_left (fun acc c => 10 * acc + (Z.of_N c - 48))%Z ds 0%Z.

Definition read_sign (s : str) : bool * str :=
  match s with
  | c :: r => if c =? chr "-" then (true, r)
              else if c =? chr "+" then (false, r)
              else (false, s)
  | [] => (false, [])
  end.

(** The exponent part: nothing, or [e]/[E], an optional sign and at least
    one digit, up to the end of the text. *)
Definition parse_exponent (s : str) : option Z :=
  match s with
  | [] => Some 0%Z
  | c :: r =>
      if (c =? chr "e") || (c =? chr "E") then
        let '(eneg, r1) := read_sign r in
        match span is_digit r1 with
        | ((_ :: _) as ed, []) => Some (cond_Zopp eneg (digits_value ed))
        | _ => None
        end
      else None
  end.

(** A whole text as a decimal floating-point literal:
    [sign] (digits [. digits*] | . digits) [exponent]. *)
Definition parse_decimal (s : str) : option decimal :=
  let '(neg, s1) := read_sign s in
  let '(ip, s2) := span is_digit s1 in
  let '(fp, s3) :=
    match s2 with
    | c :: r => if c =? chr "." then span is_digit r else ([], s2)
    | [] => ([], [])
    end in
  match ip ++ fp with
  | [] => None
  | ds =>
      match parse_exponent s3 with
      | Some e => Some {| dec_neg := neg; dec_digits := digits_value ds;
                          dec_exp10 := e - Z.of_nat (length fp) |}
      | None => None
      end
  end.

(** A whole text as [inf], [infinity] or [nan], in any case, with an
    optional sign. *)
Definition parse_inf_nan (s : str) : option spec_float :=
  let '(neg, r) := read_sign s in
  let w := map ascii_lower r in
  if str_eqb w (lit "inf") || str_eqb w (lit "infinity")
  then Some (S754_infinity neg)
  else if str_eqb w (lit "nan") then Some S754_nan
  else None.

(** Underscores are accepted between two digits only, and dropped. *)
Fixpoint drop_underscores (prev : codepoint) (s : str) : option str :=
  match s with
  | [] => if prev =? chr "_" then None else Some []
  | c :: r =>
      if c =? chr "_" then
        if is_digit prev then drop_underscores c r else None
      else if (prev =? chr "_") && negb (is_digit c) then None
      else cons c <$> drop_underscores c r
  end.

Section Float.
Context {U : unicode_db}.

(** Digits and white space of other scripts are read as their ASCII
    counterparts; any other code point outside ASCII is refused. *)
Definition ascii_of_codepoint (c : codepoint) : option codepoint :=
  if c <? 128 then Some c
  else if isspace c then Some 32
  else (fun d => 48 + d) <$> todecimal c.

(** The text that [float(s)] reads as a number. *)
Definition float_text (s : str) : option str :=
  a ← mapM ascii_of_codepoint s;
  b ← drop_underscores 0 a;
  Some (rstrip_by c_isspace (lstrip_by c_isspace b)).

(** [float(s)] for a string [s]; [ValueError] when [s] is not a number. *)
Definition py_float (s : str) : res spec_float :=
  match float_text s with
  | None => Raise ValueError
  | Some t =>
      match parse_decimal t with
      | Some d => Ok (float_of_decimal d)
      | None =>
          match parse_inf_nan t with
          | Some x => Ok x
          | None => Raise ValueError
          end
      end
  end.

End Float.

(** ** Rows and records *)

(** One row of [csv.DictReader]: every column of the header is a key; the
    value is the text of the cell, or [None] on a line shorter than the
    header. *)
Abbreviation row := (gmap string (option str)).

(** [row.get(key)] and [row.get(key, "")] *)
Definition get (r : row) (key : string) : option str :=
  default None (r !! key).

Definition get_or_empty (r : row) (key : string) : option str :=
  default (Some []) (r !! key).

(** [x.strip()] where [x] may be [None]. *)
Definition method_strip (x : option str) : res str :=
  match x with
  | Some s => Ok (strip s)
  | None => Raise AttributeError
  end.

(** [x or y] with a string for [y]. *)
Definition or_else (x : option str) (y : str) : str :=
  match x with
  | Some (c :: r) => c :: r
  | _ => y
  end.

(** [s or None] *)
Definition or_none (s : str) : option str :=
  match s with
  | [] => None
  | _ => Some s
  end.

Definition is_empty (s : str) : bool :=
  match s with
  | [] => true
  | _ => false
  end.

(** [s in (t1, ..., tn)] *)
Definition in_tuple (s : str) (ts : list str) : bool := existsb (str_eqb s) ts.

(** [{"min": ..., "max": ...}] *)
Record temp_range := { tr_min : option number; tr_max : option number }.

(** [{"new": ..., "old": ..., "wet": ...}] *)
Record temp_ranges := {
  tr_new : option temp_range;
  tr_old : option temp_range;
  tr_wet : option temp_range
}.

(** The dictionary appended to [products]; [p_product] is the key
    ["product"], [p_type] the key ["type"]. *)
Record product := {
  p_id : str;
  p_brand : str;
  p_line : str;
  p_code : str;
  p_product : str;
  p_type : str;
  p_segment : str;
  p_temp_ranges : temp_ranges;
  p_priority : Z;
  p_notes : list str;
  p_imageFile : option str;
  p_active : bool
}.

(** [wax_data] *)
Record wax_data := {
  version : str;
  scope : str;
  products : list product
}.

(** ** The field parsers *)

Definition build_temp_range (min_val max_val : option number)
  : option temp_range :=
  match min_val, max_val with
  | None, None => None
  | _, _ => Some {| tr_min := min_val; tr_max := max_val |}
  end.

Section Parsers.
Context {U : unicode_db}.

(** The text handed to [float()]: unicode minus to hyphen-minus, degree
    signs and the letters C and c removed, commas to dots. *)
Definition normalize_number (s : str) : str :=
  let s := replace_char MINUS_SIGN (chr "-") s in
  let s := remove_char (chr "c")
             (remove_char (chr "C") (remove_char DEGREE_SIGN s)) in
  replace_char (chr ",") (chr ".") s.

Definition parse_number (value : option str) : res (option number) :=
  match value with
  | None => Ok None
  | Some v =>
      let s := strip v in
      if is_empty s then Ok None
      else
        match py_float (normalize_number s) with
        | Raise ValueError => Ok None
        | Raise e => Raise e
        | Ok num =>
            if float_is_integer num
            then z ← int_of_float num; Ok (Some (PyInt z))
            else Ok (Some (PyFloat num))
        end
  end.

Definition parse_bool (value : option str) : bool :=
  match value with
  | None => true
  | Some v =>
      let s := lower (strip v) in
      if in_tuple s [lit "no"; lit "nej"; lit "false"; lit "0"]
      then false else true
  end.

Definition make_id (brand code : option str) : option str :=
  let b := remove_char (chr " ") (lower (strip (or_else brand []))) in
  let c := remove_char (chr " ") (lower (strip (or_else code []))) in
  if is_empty b && is_empty c then None
  else if is_empty c then Some b
  else Some (b ++ lit "_" ++ c).

(** ** The record assembler: the body of the loop of [main] *)

(** Lines 93 to 101: the segment of a row. *)
Definition segment_raw (r : row) : str :=
  or_else (py_or (get_or_empty r "Race/Training")
                 (get_or_empty r "race_training")) [].

Definition map_segment (raw : str) : str :=
  let segment := lower (strip raw) in
  if in_tuple segment [lit "race"; lit "r"] then lit "race"
  else if in_tuple segment [lit "training"; lit "touring"; lit "t"]
  then lit "training"
  else [].

(** One turn of the loop on [r], when [products] holds [len_products]
    records: [Ok None] is the [continue] of a skipped row, [Ok (Some p)]
    the record appended. *)
Definition process_row (r : row) (len_products : nat) : res (option product) :=
  brand ← method_strip (get_or_empty r "brand");
  line ← method_strip (get_or_empty r "line");
  let segment := map_segment (segment_raw r) in
  code ← method_strip (get_or_empty r "code");
  product_name ← method_strip (get_or_empty r "product_name");
  ty ← method_strip (get_or_empty r "type");
  let wax_type := or_else (Some (lower ty)) (lit "hardwax") in
  t_new_min ← parse_number (get r "temp_new_min");
  t_new_max ← parse_number (get r "temp_new_max");
  t_old_min ← parse_number (get r "temp_old_min");
  t_old_max ← parse_number (get r "temp_old_max");
  t_wet_min ← parse_number (get r "temp_wet_min");
  t_wet_max ← parse_number (get r "temp_wet_max");
  let ranges := {| tr_new := build_temp_range t_new_min t_new_max;
                   tr_old := build_temp_range t_old_min t_old_max;
                   tr_wet := build_temp_range t_wet_min t_wet_max |} in
  let notes_raw := or_else (get_or_empty r "notes") [] in
  let notes := if is_empty (strip notes_raw) then [] else [strip notes_raw] in
  image ← method_strip (get_or_empty r "image_file");
  let image_file := or_none image in
  priority_val ← parse_number (get r "priority");
  priority ← match priority_val with
             | Some v => int_of_number v
             | None => Ok 70%Z
             end;
  let active := parse_bool (get r "active") in
  if is_empty brand && is_empty code && is_empty product_name then Ok None
  else
    let product_id :=
      or_else (make_id (Some brand) (Some code))
              (lit "prod_" ++ str_of_nat (len_products + 1)) in
    Ok (Some {|
      p_id := product_id;
      p_brand := brand;
      p_line := line;
      p_code := code;
      p_product := or_else (Some product_name)
                           (strip (brand ++ lit " " ++ code));
      p_type := wax_type;
      p_segment := segment;
      p_temp_ranges := ranges;
      p_priority := priority;
      p_notes := notes;
      p_imageFile := image_file;
      p_active := active |}).

(** The loop over the rows, appending to [products]. *)
Fixpoint process_rows (rows : list row) (products : list product)
  : res (list product) :=
  match rows with
  | [] => Ok products
  | r :: rest =>
      o ← process_row r (length products);
      match o with
      | None => process_rows rest products
      | Some p => process_rows rest (products ++ [p])
      end
  end.

(** ** The driver *)

(** The two paths of the program: what [csv.DictReader] yields from
    [CSV_PATH] when that file exists (decoding, delimiter sniffing and line
    splitting are the csv module's), and the bytes at [OUT_JSON_PATH] when
    that file exists.  An input on which the csv module itself raises (the
    sniffer's [csv.Error] on an empty or one-column file, a decoding error)
    yields no table and has no [files] here. *)
Record files := {
  csv_rows : option (list row);
  out_json : option (list Byte.byte)
}.

(** [json.dump(wax_data, out_f, ensure_ascii=False, indent=2)], encoded in
    UTF-8: the json module's serialisation of the document. *)
Variable json_dump : wax_data -> list Byte.byte.

Definition build_wax_data (active_products : list product) : wax_data :=
  {| version := lit "2.0";
     scope := lit "Classic grip " ++ [EN_DASH] ++ lit " new/old/wet";
     products := active_products |}.

(** [main()] from the table that the reader yields: how it ends, and the
    files it leaves.  The summary line printed at the end, and what becomes
    of the run when printing it fails, are not part of the model. *)
Definition main (fs : files) : res unit * files :=
  match csv_rows fs with
  | None => (Raise FileNotFoundError, fs)
  | Some rows =>
      match process_rows rows [] with
      | Raise e => (Raise e, fs)
      | Ok products =>
          let active_products := List.filter p_active products in
          (Ok tt, {| csv_rows := csv_rows fs;
                     out_json := Some (json_dump (build_wax_data active_products)) |})
      end
  end.

End Parsers.

(** * Vocabulary of the properties *)

(** The tokens that [parse_bool] reads as false. *)
Definition NEGATIVE_TOKENS : list str :=
  [lit "no"; lit "nej"; lit "false"; lit "0"].

(** A value under "new", "old" or "wet": [null], or a range with a bound. *)
Definition range_has_bound (o : option temp_range) : Prop :=
  match o with
  | None => True
  | Some t => tr_min t <> None \/ tr_max t <> None
  end.

(** The three ranges of a record. *)
Definition ranges_have_bounds (p : product) : Prop :=
  range_has_bound (tr_new (p_temp_ranges p))
  /\ range_has_bound (tr_old (p_temp_ranges p))
  /\ range_has_bound (tr_wet (p_temp_ranges p)).

(** Following the specification's words: lower-case and strip internal
    spaces from both brand and code independently; if both are empty return
    null; if code is empty return the brand alone; otherwise brand, "_" and
    code. *)
Definition spec_make_id `{U : unicode_db} (brand code : str) : option str :=
  let b := remove_char (chr " ") (lower brand) in
  let c := remove_char (chr " ") (lower code) in
  match b, c with
  | [], [] => None
  | _, [] => Some b
  | _, _ => Some (b ++ lit "_" ++ c)
  end.

(** The horizontal tab, white space that is not the space character. *)
Definition TAB : codepoint := 9.

(** The row of a header and the cells of a line, as [dict(zip(...))]. *)
Definition row_of (cells : list (string * option str)) : row :=
  list_to_map cells.

(** The integer an integral float stands for. *)
Definition float_integral_value (x : spec_float) : Z :=
  match x with
  | S754_finite s m e => cond_Zopp s (Z.shiftl (Z.pos m) e)
  | _ => 0%Z
  end.

(** Following the specification's words: trim; replace the unicode minus
    sign by the hyphen-minus; remove every degree sign and every C and c;
    replace commas by periods; parse as a real number, null on failure and
    for an empty or white-space-only input; a value with zero fractional
    part is returned as an integer, any other as the real. *)
Definition spec_parse_number `{U : unicode_db} (raw : str) : option number :=
  if forallb isspace raw then None
  else
    let a := strip raw in
    let b := replace_char MINUS_SIGN (chr "-") a in
    let c := List.filter
               (fun ch => negb (existsb (N.eqb ch)
                                        [DEGREE_SIGN; chr "C"; chr "c"])) b in
    let d := replace_char (chr ",") (chr ".") c in
    match py_float d with
    | Raise _ => None
    | Ok x => Some (if float_is_integer x then PyInt (float_integral_value x)
                    else PyFloat x)
    end.

(** 12.5 as a binary64: 25 * 2^-1, with the mantissa on 53 bits. *)
Definition float_12_5 : spec_float :=
  S754_finite false (25 * 2 ^ 48) (-49).

(** The characters of a decimal floating-point literal. *)
Definition decimal_char (c : codepoint) : bool :=
  is_digit c
  || existsb (N.eqb c) [chr "+"; chr "-"; chr "."; chr "e"; chr "E"].

(** A to Z and a to z. *)
Definition is_ascii_letter (c : codepoint) : bool :=
  ((65 <=? c) && (c <=? 90)) || ((97 <=? c) && (c <=? 122)).

(** A letter that no number is written with: an ASCII letter other than C,
    c (removed by [parse_number]) and E, e (the exponent mark), or a code
    point outside ASCII other than the degree sign and the unicode minus
    that is neither white space nor a decimal digit, as is every letter
    outside ASCII. *)
Definition stray_letter `{U : unicode_db} (c : codepoint) : bool :=
  if c <? 128
  then is_ascii_letter c
       && negb (existsb (N.eqb c) [chr "C"; chr "c"; chr "E"; chr "e"])
  else negb (isspace c) && negb (c =? DEGREE_SIGN) && negb (c =? MINUS_SIGN)
       && match todecimal c with Some _ => false | None => true end.

(** The text has an ASCII letter other than C and c. *)
Definition has_letter_other_than_C (s : str) : bool :=
  existsb (fun c => is_ascii_letter c
                    && negb (c =? chr "C") && negb (c =? chr "c")) s.

(** The columns that the loop strips without a guard for [None]. *)
Definition STRIPPED_COLUMNS : list string :=
  ["brand"; "line"; "code"; "product_name"; "type"; "image_file"].

(** [math.isfinite(x)] *)
Definition is_finite (x : spec_float) : bool :=
  match x with
  | S754_zero _ | S754_finite _ _ _ => true
  | S754_infinity _ | S754_nan => false
  end.

(** No stripped column holds [None], and the priority is not an infinity or
    NaN. *)
Definition row_is_sound `{U : unicode_db} (r : row) : Prop :=
  (forall k, In k STRIPPED_COLUMNS -> r !! k <> Some None)
  /\ (forall x, parse_number (get r "priority") = Ok (Some (PyFloat x)) ->
                is_finite x = true).

(** A row whose brand, code and product name are all empty once trimmed. *)
Definition row_is_blank (r : row) : bool :=
  match method_strip (get_or_empty r "brand"),
        method_strip (get_or_empty r "code"),
        method_strip (get_or_empty r "product_name") with
  | Ok brand, Ok code, Ok product_name =>
      is_empty brand && is_empty code && is_empty product_name
  | _, _, _ => false
  end.

(** The "active" cell of a row, as [parse_bool] reads it. *)
Definition row_is_active `{U : unicode_db} (r : row) : bool :=
  parse_bool (get r "active").

(** [p] is the record that the loop body builds from [r]. *)
Definition assembled_from `{U : unicode_db} (r : row) (p : product) : Prop :=
  exists n, process_row r n = Ok (Some p).

(** The columns that the loop body reads. *)
Definition READ_COLUMNS : list string :=
  ["brand"; "line"; "Race/Training"; "race_training"; "code"; "product_name";
   "type"; "temp_new_min"; "temp_new_max"; "temp_old_min"; "temp_old_max";
   "temp_wet_min"; "temp_wet_max"; "notes"; "image_file"; "priority";
   "active"].

(** The values that the segment of a record takes. *)
Definition SEGMENTS : list str := [lit "race"; lit "training"; lit ""].

(** A text without white space at either end. *)
Definition is_trimmed (s : str) : Prop := strip s = s.

(** A sample row: a header of eight columns and one line of cells. *)
Definition sample_row : row :=
  row_of [("brand", Some (lit " Swix "));
          ("code", Some (lit "VP30"));
          ("Race/Training", Some (lit "Race"));
          ("temp_new_min", Some (MINUS_SIGN :: lit "5" ++ DEGREE_SIGN :: lit "C"));
          ("temp_new_max", Some (lit "-2,5"));
          ("notes", Some (lit "  grip wax "));
          ("image_file", Some (lit "vp30.png "));
          ("priority", Some (lit "80"))].

(** A sample table: a kept row, a blank row, an inactive row, and a kept row
    without brand and code. *)
Definition sample_rows : list row :=
  [sample_row;
   row_of [("brand", Some (lit "")); ("code", Some (lit " "));
           ("product_name", Some (lit "")); ("active", Some (lit "yes"))];
   row_of [("brand", Some (lit "Rode")); ("code", Some (lit ""));
           ("product_name", Some (lit "")); ("active", Some (lit "no"))];
   row_of [("product_name", Some (lit "Klister")); ("active", Some (lit ""))]].

(** The columns whose cells go through [parse_number], and the text columns
    that the loop guards with [or ""]. *)
Definition NUMBER_COLUMNS : list string :=
  ["temp_new_min"; "temp_new_max"; "temp_old_min"; "temp_old_max";
   "temp_wet_min"; "temp_wet_max"; "priority"].

Definition GUARDED_COLUMNS : list string :=
  ["Race/Training"; "race_training"; "notes"].

(** A record with another identifier. *)
Definition with_id (p : product) (i : str) : product :=
  {| p_id := i; p_brand := p_brand p; p_line := p_line p; p_code := p_code p;
     p_product := p_product p; p_type := p_type p; p_segment := p_segment p;
     p_temp_ranges := p_temp_ranges p; p_priority := p_priority p;
     p_notes := p_notes p; p_imageFile := p_imageFile p;
     p_active := p_active p |}.

(** What [parse_number] makes of one character before [float()]: removed,
    or kept, the unicode minus as a hyphen and the comma as a period. *)
Definition norm_char (c : codepoint) : option codepoint :=
  let c1 := if c =? MINUS_SIGN then chr "-" else c in
  if existsb (N.eqb c1) [DEGREE_SIGN; chr "C"; chr "c"] then None
  else Some (if c1 =? chr "," then chr "." else c1).

(** A text of ASCII characters only. *)
Definition is_ascii (s : str) : bool := forallb (fun c => c <? 128) s.

(** The number of occurrences of a character in a text. *)
Definition count_char (a : codepoint) (s : str) : nat :=
  length (List.filter (N.eqb a) s).

(** [str(z)] of an integer. *)
Definition str_of_Z (z : Z) : str :=
  if (z <? 0)%Z then chr "-" :: str_of_nat (Z.to_nat (- z))
  else str_of_nat (Z.to_nat z).

(** The characters of the decimal writing of an integer. *)
Definition plain_char (c : codepoint) : bool := is_digit c || (c =? chr "-").

(** The characters that [parse_number] removes. *)
Definition CELSIUS_MARKS : list codepoint := [DEGREE_SIGN; chr "C"; chr "c"].

(** The product name that stands in for an empty one: brand and code, with
    a space between them when neither is empty. *)
Definition brand_and_code (brand code : str) : str :=
  if is_empty code then brand
  else if is_empty brand then code
  else brand ++ lit " " ++ code.

(** [t] is [s] without the white space at its two ends: [s] is [t] between
    two runs of white space, and [t] neither starts nor ends with white
    space. *)
Definition starts_with_space (t : str) : bool :=
  match t with
  | c :: _ => isspace c
  | [] => false
  end.

Definition ends_with_space (t : str) : bool := starts_with_space (rev t).

Definition trimmed_of (s t : str) : Prop :=
  exists a b,
    s = a ++ t ++ b
    /\ forallb isspace a = true /\ forallb isspace b = true
    /\ starts_with_space t = false /\ ends_with_space t = false.

(** White space other than the space character. *)
Definition NBSP : codepoint := 0xA0.
Definition FILE_SEPARATOR : codepoint := 0x1C.
Definition NEXT_LINE : codepoint := 0x85.
Definition IDEOGRAPHIC_SPACE : codepoint := 0x3000.
Definition LINE_FEED : codepoint := 10.

(** The steps of the specification after the trimming, on the trimmed text
    [t]: null when nothing is left; else replace the unicode minus sign by
    the hyphen-minus, remove every degree sign and every C and c, replace
    commas by periods, and parse as a real number, null on failure; a value
    with zero fractional part is returned as an integer. *)
Definition spec_number_of_trimmed `{U : unicode_db} (t : str) : option number :=
  match t with
  | [] => None
  | _ =>
      let b := replace_char MINUS_SIGN (chr "-") t in
      let c := List.filter
                 (fun ch => negb (existsb (N.eqb ch)
                                          [DEGREE_SIGN; chr "C"; chr "c"])) b in
      let d := replace_char (chr ",") (chr ".") c in
      match py_float d with
      | Raise _ => None
      | Ok x => Some (if float_is_integer x then PyInt (float_integral_value x)
                      else PyFloat x)
      end
  end.

(** A letter other than C and c: an ASCII letter other than these two, or a
    code point outside ASCII other than the degree sign and the unicode
    minus that is neither white space nor a decimal digit, as is every
    letter outside ASCII. *)
Definition other_letter `{U : unicode_db} (c : codepoint) : bool :=
  if c <? 128
  then is_ascii_letter c && negb (existsb (N.eqb c) [chr "C"; chr "c"])
  else negb (isspace c) && negb (c =? DEGREE_SIGN) && negb (c =? MINUS_SIGN)
       && match todecimal c with Some _ => false | None => true end.

(** The characters of a numeral without exponent. *)
Definition mantissa_char (c : codepoint) : bool :=
  is_digit c || existsb (N.eqb c) [chr "+"; chr "-"; chr "."].

(** An optional sign. *)
Definition is_sign (s : str) : Prop :=
  s = [] \/ s = [chr "+"] \/ s = [chr "-"].

(** A numeral in exponent notation: an optional sign, digits with an
    optional period among them and at least one digit, then one E or e, an
    optional sign and at least one digit up to the end. *)
Definition exponent_notation (t : str) : Prop :=
  exists sign ip point fp e esign ed,
    t = sign ++ ip ++ point ++ fp ++ e :: esign ++ ed
    /\ is_sign sign
    /\ forallb is_digit ip = true
    /\ (point = [] \/ point = [chr "."])
    /\ forallb is_digit fp = true
    /\ ip ++ fp <> []
    /\ (e = chr "e" \/ e = chr "E")
    /\ is_sign esign
    /\ forallb is_digit ed = true
    /\ ed <> [].

(** A serialiser for the examples, in place of [json.dump]: the ids of the
    records of the document, one on each line. *)
Definition ascii_bytes (s : str) : list Byte.byte :=
  flat_map (fun c => match Byte.of_N c with
                     | Some b => [b]
                     | None => []
                     end) s.

Definition dump_ids (doc : wax_data) : list Byte.byte :=
  flat_map (fun p => ascii_bytes (p_id p) ++ [Byte.x0a]) (products doc).

(** A blank row whose priority cell reads "inf". *)
Definition blank_row_inf : row :=
  row_of [("brand", Some (lit "")); ("code", Some (lit " "));
          ("product_name", Some (lit "")); ("priority", Some (lit "inf"))].

(** Four rows: one kept, one blank, one inactive, one kept without brand
    and code, whose id counts the inactive record before it. *)
Definition four_rows : list row :=
  [row_of [("brand", Some (lit "Swix")); ("code", Some (lit "VP30"));
           ("temp_new_min", Some (lit "-5")); ("temp_new_max", Some (lit "-2"));
           ("active", Some (lit "yes"))];
   row_of [("brand", Some (lit "")); ("code", Some (lit " "));
           ("product_name", Some (lit "")); ("active", Some (lit "yes"))];
   row_of [("brand", Some (lit "Rode")); ("code", Some (lit ""));
           ("product_name", Some (lit "")); ("active", Some (lit "no"))];
   row_of [("product_name", Some (lit "Klister")); ("active", Some (lit ""))]].

(** * Properties *)

(** ** Text and tuples *)

Lemma str_eqb_eq (s t : str) : str_eqb s t = true <-> s = t.
Proof.
  revert t; induction s as [|c s IH]; intros [|d t]; simpl; try easy.
  rewrite andb_true_iff, N.eqb_eq, IH.
  split; [intros [-> ->]; reflexivity | intros [= -> ->]; auto].
Qed.

Lemma in_tuple_In (s : str) (ts : list str) : in_tuple s ts = true <-> In s ts.
Proof.
  unfold in_tuple. rewrite existsb_exists. split.
  - intros (t & Ht & E). apply str_eqb_eq in E. now subst.
  - intros H. exists s. split; [easy | now apply str_eqb_eq].
Qed.

Lemma is_empty_true (s : str) : is_empty s = true <-> s = [].
Proof. destruct s; simpl; split; congruence. Qed.

(** ** Trimming *)

Lemma forallb_lstrip_by (sp : codepoint -> bool) (s : str) :
  forallb sp (lstrip_by sp s) = forallb sp s.
Proof.
  induction s as [|c s IH]; simpl; [reflexivity|].
  destruct (sp c) eqn:E; simpl; [exact IH | now rewrite E].
Qed.

Lemma lstrip_by_nil (sp : codepoint -> bool) (s : str) :
  lstrip_by sp s = [] <-> forallb sp s = true.
Proof.
  induction s as [|c s IH]; simpl; [easy|].
  destruct (sp c); simpl; [exact IH | split; discriminate].
Qed.

Lemma forallb_rev (sp : codepoint -> bool) (s : str) :
  forallb sp (rev s) = forallb sp s.
Proof.
  induction s as [|c s IH]; simpl; [reflexivity|].
  rewrite forallb_app, IH. simpl. rewrite andb_true_r. apply andb_comm.
Qed.

Lemma rstrip_by_nil (sp : codepoint -> bool) (s : str) :
  rstrip_by sp s = [] <-> forallb sp s = true.
Proof.
  unfold rstrip_by. rewrite <- forallb_rev, <- lstrip_by_nil.
  split; intros H.
  - apply (f_equal (@rev _)) in H. now rewrite rev_involutive in H.
  - now rewrite H.
Qed.

(** The trimmed text is empty exactly for texts of white space only. *)
Lemma strip_nil (s : str) : strip s = [] <-> forallb isspace s = true.
Proof. unfold strip. now rewrite rstrip_by_nil, forallb_lstrip_by. Qed.

Lemma lstrip_by_head (sp : codepoint -> bool) (s : str) :
  match lstrip_by sp s with
  | [] => True
  | c :: _ => sp c = false
  end.
Proof.
  induction s as [|c s IH]; simpl; [exact I|].
  destruct (sp c) eqn:E; [exact IH | exact E].
Qed.

Lemma lstrip_by_all (sp : codepoint -> bool) (a s : str) :
  forallb sp a = true -> lstrip_by sp (a ++ s) = lstrip_by sp s.
Proof.
  induction a as [|c a IH]; simpl; [reflexivity|].
  intros [-> H]%andb_true_iff. auto.
Qed.

Lemma lstrip_by_keeps (sp : codepoint -> bool) (a b : str) (c : codepoint) :
  sp c = false -> lstrip_by sp (a ++ c :: b) = lstrip_by sp a ++ c :: b.
Proof.
  intros Hc. induction a as [|d a IH]; simpl; [now rewrite Hc|].
  destruct (sp d); [exact IH | reflexivity].
Qed.

Lemma rstrip_by_cons (sp : codepoint -> bool) (c : codepoint) (t : str) :
  sp c = false -> rstrip_by sp (c :: t) = c :: rstrip_by sp t.
Proof.
  intros Hc. unfold rstrip_by. simpl.
  rewrite (lstrip_by_keeps sp (rev t) [] c Hc), rev_app_distr. reflexivity.
Qed.

Lemma rstrip_by_all (sp : codepoint -> bool) (s b : str) :
  forallb sp b = true -> rstrip_by sp (s ++ b) = rstrip_by sp s.
Proof.
  intros H. unfold rstrip_by. rewrite rev_app_distr, lstrip_by_all; [easy|].
  now rewrite forallb_rev.
Qed.

Lemma lstrip_by_idem (sp : codepoint -> bool) (s : str) :
  lstrip_by sp (lstrip_by sp s) = lstrip_by sp s.
Proof.
  pose proof (lstrip_by_head sp s) as H.
  destruct (lstrip_by sp s) as [|c t]; simpl; [reflexivity | now rewrite H].
Qed.

Lemma rstrip_by_idem (sp : codepoint -> bool) (s : str) :
  rstrip_by sp (rstrip_by sp s) = rstrip_by sp s.
Proof.
  unfold rstrip_by. now rewrite rev_involutive, lstrip_by_idem.
Qed.

(** Trimming twice is trimming once. *)
Lemma strip_idem (s : str) : strip (strip s) = strip s.
Proof.
  unfold strip. pose proof (lstrip_by_head isspace s) as H.
  destruct (lstrip_by isspace s) as [|c t]; [reflexivity|].
  rewrite (rstrip_by_cons isspace c t H). simpl. rewrite H.
  now rewrite (rstrip_by_cons isspace c _ H), rstrip_by_idem.
Qed.

Lemma strip_lstrip_app (s b : str) :
  forallb isspace b = true ->
  rstrip_by isspace (lstrip_by isspace (s ++ b))
  = rstrip_by isspace (lstrip_by isspace s ++ b).
Proof.
  intros Hb. induction s as [|c s IH]; simpl.
  - rewrite (proj2 (lstrip_by_nil isspace b) Hb). simpl.
    symmetry. now apply rstrip_by_nil.
  - destruct (isspace c); [exact IH | reflexivity].
Qed.

(** White space around a text does not change what trimming leaves. *)
Lemma strip_padded (a s b : str) :
  forallb isspace a = true -> forallb isspace b = true ->
  strip (a ++ s ++ b) = strip s.
Proof.
  intros Ha Hb. unfold strip.
  now rewrite (lstrip_by_all isspace a _ Ha), strip_lstrip_app, rstrip_by_all.
Qed.

Lemma strip_is_trimmed (s : str) : is_trimmed (strip s).
Proof. apply strip_idem. Qed.

Lemma lstrip_by_split (sp : codepoint -> bool) (s : str) :
  exists a, s = a ++ lstrip_by sp s /\ forallb sp a = true.
Proof.
  induction s as [|c s (a & E & H)]; simpl; [now exists []|].
  destruct (sp c) eqn:Ec.
  - exists (c :: a). simpl. rewrite Ec, H. now rewrite <- E.
  - now exists [].
Qed.

Lemma rstrip_by_split (sp : codepoint -> bool) (s : str) :
  exists b, s = rstrip_by sp s ++ b /\ forallb sp b = true.
Proof.
  unfold rstrip_by. destruct (lstrip_by_split sp (rev s)) as (a & E & H).
  exists (rev a). split; [|now rewrite forallb_rev].
  rewrite <- rev_app_distr, <- E. now rewrite rev_involutive.
Qed.

(** What [strip()] returns is the text between the white space at the two
    ends. *)
Lemma strip_trimmed_of (s : str) : trimmed_of s (strip s).
Proof.
  destruct (lstrip_by_split isspace s) as (a & Ea & Ha).
  destruct (rstrip_by_split isspace (lstrip_by isspace s)) as (b & Eb & Hb).
  exists a, b. fold (strip s) in Eb.
  split; [now rewrite <- Eb|]. split; [exact Ha|]. split; [exact Hb|]. split.
  - unfold strip. pose proof (lstrip_by_head isspace s) as H.
    destruct (lstrip_by isspace s) as [|c t]; [reflexivity|].
    now rewrite (rstrip_by_cons isspace c t H).
  - unfold ends_with_space, strip, rstrip_by. rewrite rev_involutive.
    pose proof (lstrip_by_head isspace (rev (lstrip_by isspace s))) as H.
    now destruct (lstrip_by isspace (rev (lstrip_by isspace s))).
Qed.

(** And it is the only such text. *)
Lemma trimmed_of_strip (s t : str) : trimmed_of s t -> strip s = t.
Proof.
  intros (a & b & -> & Ha & Hb & Hs & He).
  rewrite (strip_padded a t b Ha Hb).
  destruct t as [|c t]; [reflexivity|].
  unfold strip. simpl in Hs. cbn [lstrip_by]. rewrite Hs.
  unfold rstrip_by. unfold ends_with_space in He.
  destruct (rev (c :: t)) as [|d r] eqn:Er.
  - apply (f_equal (@rev _)) in Er. now rewrite rev_involutive in Er.
  - simpl in He. cbn [lstrip_by]. rewrite He, <- Er. apply rev_involutive.
Qed.

(** ** parse_bool *)

(** C7: [parse_bool] is true on [None]; on a string it is false exactly when
    the trimmed, lower-cased text is one of "no", "nej", "false", "0", and
    true on everything else.  The trimming is that of the white space at the
    two ends of the cell, whatever white space it is, and of nothing inside:
    with [t] the text between the white space at the two ends of [s], the
    answer is false exactly when the lower-cased [t] is a token, and padding
    a cell with white space does not change the answer.  "Nej", "NO",
    " no ", a tab before "NEJ" and a line feed after it, "False" between a
    no-break space and a file separator give false; "", "yes", garbage and
    "n o" give true. *)
Theorem parse_bool_negative_tokens `{U : unicode_db} :
  parse_bool None = true
  /\ (forall s, parse_bool (Some s) = false <-> In (lower (strip s)) NEGATIVE_TOKENS)
  /\ (forall s, parse_bool (Some s) = true <-> ~ In (lower (strip s)) NEGATIVE_TOKENS)
  /\ (forall s, trimmed_of s (strip s))
  /\ (forall s t, trimmed_of s t ->
        (parse_bool (Some s) = false <-> In (lower t) NEGATIVE_TOKENS))
  /\ (forall a s b,
        forallb isspace a = true -> forallb isspace b = true ->
        parse_bool (Some (a ++ s ++ b)) = parse_bool (Some s))
  /\ parse_bool (Some (lit "Nej")) = false
  /\ parse_bool (Some (lit "NO")) = false
  /\ parse_bool (Some (lit "")) = true
  /\ parse_bool (Some (lit "yes")) = true
  /\ parse_bool (Some (lit "maybe?")) = true
  /\ parse_bool (Some (lit " no ")) = false
  /\ parse_bool (Some (TAB :: lit "NEJ" ++ [LINE_FEED])) = false
  /\ parse_bool (Some (NBSP :: lit "False" ++ [FILE_SEPARATOR])) = false
  /\ parse_bool (Some (IDEOGRAPHIC_SPACE :: lit "0" ++ [NEXT_LINE])) = false
  /\ parse_bool (Some (lit "  ")) = true
  /\ parse_bool (Some (lit "n o")) = true
  /\ parse_bool (Some (lit " n o ")) = true
  /\ parse_bool (Some (lit "no.")) = true.
Proof.
  split; [reflexivity|].
  assert (E : forall s, parse_bool (Some s) = false
                        <-> In (lower (strip s)) NEGATIVE_TOKENS).
  { intros s. unfold parse_bool. rewrite <- in_tuple_In.
    fold NEGATIVE_TOKENS.
    destruct (in_tuple (lower (strip s)) NEGATIVE_TOKENS); split; congruence. }
  split; [exact E|]. split.
  { intros s. rewrite <- E. destruct (parse_bool (Some s)); split; congruence. }
  split; [exact strip_trimmed_of|]. split.
  { intros s t H. rewrite E. now rewrite (trimmed_of_strip s t H). }
  split.
  { intros a s b Ha Hb. unfold parse_bool.
    now rewrite (strip_padded a s b Ha Hb). }
  repeat split; vm_compute; reflexivity.
Qed.

(** ** build_temp_range *)

Lemma build_temp_range_has_bound (mn mx : option number) :
  range_has_bound (build_temp_range mn mx).
Proof.
  destruct mn, mx; simpl; auto; left; discriminate.
Qed.

(** What a successful turn of the loop appended. *)
Lemma process_row_Some `{U : unicode_db} (r : row) (n : nat) (p : product) :
  process_row r n = Ok (Some p) ->
  exists brand line code product_name ty image
         t1 t2 t3 t4 t5 t6 priority_val priority,
    method_strip (get_or_empty r "brand") = Ok brand
    /\ method_strip (get_or_empty r "line") = Ok line
    /\ method_strip (get_or_empty r "code") = Ok code
    /\ method_strip (get_or_empty r "product_name") = Ok product_name
    /\ method_strip (get_or_empty r "type") = Ok ty
    /\ method_strip (get_or_empty r "image_file") = Ok image
    /\ parse_number (get r "temp_new_min") = Ok t1
    /\ parse_number (get r "temp_new_max") = Ok t2
    /\ parse_number (get r "temp_old_min") = Ok t3
    /\ parse_number (get r "temp_old_max") = Ok t4
    /\ parse_number (get r "temp_wet_min") = Ok t5
    /\ parse_number (get r "temp_wet_max") = Ok t6
    /\ parse_number (get r "priority") = Ok priority_val
    /\ match priority_val with
       | Some v => int_of_number v
       | None => Ok 70%Z
       end = Ok priority
    /\ is_empty brand && is_empty code && is_empty product_name = false
    /\ p_brand p = brand /\ p_line p = line /\ p_code p = code
    /\ p_type p = or_else (Some (lower ty)) (lit "hardwax")
    /\ p_segment p = map_segment (segment_raw r)
    /\ p_temp_ranges p = {| tr_new := build_temp_range t1 t2;
                            tr_old := build_temp_range t3 t4;
                            tr_wet := build_temp_range t5 t6 |}
    /\ p_priority p = priority
    /\ p_imageFile p = or_none image
    /\ p_active p = parse_bool (get r "active")
    /\ p_id p = or_else (make_id (Some brand) (Some code))
                        (lit "prod_" ++ str_of_nat (n + 1)).
Proof.
  unfold process_row, mbind, res_bind. intros H.
  repeat match type of H with
         | match ?x with Ok _ => _ | Raise _ => _ end = _ =>
             let E := fresh "E" in destruct x eqn:E; [|discriminate]
         end.
  destruct (is_empty _ && is_empty _ && is_empty _) eqn:Eb; [discriminate|].
  injection H as <-. simpl.
  repeat eexists; repeat split; eauto.
Qed.

Lemma process_row_ranges `{U : unicode_db} (r : row) (n : nat) (p : product) :
  process_row r n = Ok (Some p) -> ranges_have_bounds p.
Proof.
  intros H. apply process_row_Some in H.
  destruct H as (? & ? & ? & ? & ? & ? & t1 & t2 & t3 & t4 & t5 & t6 & ? & ? & H).
  unfold ranges_have_bounds.
  replace (p_temp_ranges p) with
    {| tr_new := build_temp_range t1 t2; tr_old := build_temp_range t3 t4;
       tr_wet := build_temp_range t5 t6 |} by (symmetry; tauto).
  simpl. auto using build_temp_range_has_bound.
Qed.

(** A property of every appended record holds of all of [products] when the
    loop ends. *)
Lemma process_rows_Forall `{U : unicode_db} (P : product -> Prop) :
  (forall r n p, process_row r n = Ok (Some p) -> P p) ->
  forall rows acc out,
    Forall P acc -> process_rows rows acc = Ok out -> Forall P out.
Proof.
  intros HP rows. induction rows as [|r rows IH]; intros acc out Hacc; simpl.
  - now intros [= <-].
  - unfold mbind, res_bind.
    destruct (process_row r (length acc)) as [[p|]|e] eqn:E; try discriminate.
    + apply IH, Forall_app; split; [easy|].
      constructor; [eauto | constructor].
    + now apply IH.
Qed.

(** C8: [build_temp_range] is [None] exactly when both bounds are [None],
    and otherwise the range with both bounds as given; so each of "new",
    "old" and "wet" of a produced record is [None] or a range with a bound
    that is not [None]. *)
Theorem build_temp_range_both_missing `{U : unicode_db} :
  (forall mn mx, build_temp_range mn mx = None <-> mn = None /\ mx = None)
  /\ (forall mn mx,
        match build_temp_range mn mx with
        | None => mn = None /\ mx = None
        | Some t => t = {| tr_min := mn; tr_max := mx |}
                    /\ (mn <> None \/ mx <> None)
        end)
  /\ build_temp_range None None = None
  /\ build_temp_range (Some (PyInt (-5))) None
     = Some {| tr_min := Some (PyInt (-5)); tr_max := None |}
  /\ (forall r n,
        match process_row r n with
        | Ok (Some p) => ranges_have_bounds p
        | _ => True
        end)
  /\ (forall rows,
        match process_rows rows [] with
        | Ok out => Forall ranges_have_bounds (List.filter p_active out)
        | Raise _ => True
        end).
Proof.
  repeat split; try discriminate.
  - destruct mn, mx; simpl in *; congruence.
  - destruct mn, mx; simpl in *; congruence.
  - intros [-> ->]; reflexivity.
  - intros mn mx; destruct mn, mx; simpl; split; auto; left; discriminate.
  - intros r n. destruct (process_row r n) as [[p|]|e] eqn:E; trivial.
    eapply process_row_ranges; eauto.
  - intros rows. destruct (process_rows rows []) as [out|e] eqn:E; trivial.
    assert (Forall ranges_have_bounds out).
    { eapply process_rows_Forall; [|constructor|exact E].
      intros r n p. apply process_row_ranges. }
    rewrite Forall_forall in *. intros p Hp%list_elem_of_In.
    apply filter_In in Hp as [Hp _]. apply H. now apply list_elem_of_In.
Qed.

(** ** make_id *)

Lemma or_else_Some_nil (s : str) : or_else (Some s) [] = s.
Proof. now destruct s. Qed.

Lemma make_id_trims `{U : unicode_db} (brand code : str) :
  make_id (Some brand) (Some code) = spec_make_id (strip brand) (strip code).
Proof.
  unfold make_id, spec_make_id. rewrite !or_else_Some_nil.
  destruct (remove_char _ (lower (strip brand))),
           (remove_char _ (lower (strip code))); reflexivity.
Qed.

(** C6, as the code has it: [make_id] first trims the white space around
    brand and code (a missing value counts as empty), then lower-cases each
    and removes its spaces; it returns [None] when both results are empty,
    the brand's alone when the code's is empty, and otherwise the two joined
    by "_".  On texts without surrounding white space this is the function
    of the specification.  ("Swix", "VP30") gives "swix_vp30", ("", "")
    gives [None], ("Swix", "") gives "swix". *)
Theorem make_id_trimmed `{U : unicode_db} :
  (forall brand code,
     make_id (Some brand) (Some code) = spec_make_id (strip brand) (strip code))
  /\ (forall brand code,
        strip brand = brand -> strip code = code ->
        make_id (Some brand) (Some code) = spec_make_id brand code)
  /\ (forall code, make_id None code = make_id (Some []) code)
  /\ (forall brand, make_id brand None = make_id brand (Some []))
  /\ make_id (Some (lit "Swix")) (Some (lit "VP30")) = Some (lit "swix_vp30")
  /\ make_id (Some (lit "")) (Some (lit "")) = None
  /\ make_id (Some (lit "Swix")) (Some (lit "")) = Some (lit "swix").
Proof.
  split; [exact make_id_trims|].
  split; [intros brand code Hb Hc; now rewrite make_id_trims, Hb, Hc|].
  repeat split; try (vm_compute; reflexivity); now intros [[|]|].
Qed.

(** C6, as stated, fails on a brand with a tab in front and a tab inside:
    the code trims the first and keeps the second ("swix<TAB>vp_30"), while
    lower-casing and removing spaces keeps both, and removing all white
    space would give "swixvp_30".  On a brand that is one tab and an empty
    code the code returns [None], where lower-casing and removing spaces
    leaves the tab as the brand. *)
Lemma make_id_untrimmed_differs :
  let brand := TAB :: lit "Swix" ++ TAB :: lit "VP" in
  make_id (U := latin1_db) (Some brand) (Some (lit "30"))
    = Some (lit "swix" ++ TAB :: lit "vp_30")
  /\ spec_make_id (U := latin1_db) brand (lit "30")
     = Some (TAB :: lit "swix" ++ TAB :: lit "vp_30")
  /\ make_id (U := latin1_db) (Some brand) (Some (lit "30"))
     <> spec_make_id (U := latin1_db) brand (lit "30")
  /\ make_id (U := latin1_db) (Some brand) (Some (lit "30"))
     <> Some (lit "swixvp_30")
  /\ make_id (U := latin1_db) (Some [TAB]) (Some []) = None
  /\ spec_make_id (U := latin1_db) [TAB] [] = Some [TAB].
Proof. vm_compute. repeat split; discriminate. Qed.

(** Brand and code as the assembler passes them, already trimmed. *)
Lemma make_id_trimmed_witness :
  make_id (U := latin1_db) (Some (lit "Swix")) (Some (lit "VP 30"))
  = spec_make_id (U := latin1_db) (lit "Swix") (lit "VP 30").
Proof.
  apply (proj1 (proj2 make_id_trimmed)); reflexivity.
Defined.

(** ** The segment of a row *)

(** C10: the segment falls back by value.  When the column "Race/Training"
    is there with an empty text or [None] and "race_training" holds a text
    that is not empty, that text is the one mapped to the segment; a
    "Race/Training" text that is not empty is the one mapped, whatever
    "race_training" holds; and with "Race/Training" empty, [None] or absent
    the segment does not depend on it. *)
Theorem segment_falls_back_by_value `{U : unicode_db}
    (r : row) (n : nat) (p : product) :
  process_row r n = Ok (Some p) ->
  (forall fallback,
     r !! "Race/Training" = Some None \/ r !! "Race/Training" = Some (Some []) ->
     r !! "race_training" = Some (Some fallback) -> fallback <> [] ->
     p_segment p = map_segment fallback)
  /\ (forall primary,
        r !! "Race/Training" = Some (Some primary) -> primary <> [] ->
        p_segment p = map_segment primary)
  /\ (truthy (get_or_empty r "Race/Training") = false ->
      p_segment p = map_segment (or_else (get_or_empty r "race_training") [])).
Proof.
  intros H. apply process_row_Some in H.
  assert (E : p_segment p = map_segment (segment_raw r)).
  { destruct H as (? & ? & ? & ? & ? & ? & ? & ? & ? & ? & ? & ? & ? & ? & H).
    tauto. }
  rewrite E. unfold segment_raw, get_or_empty, py_or. repeat split.
  - intros fallback [Hp | Hp] Hf Hne; rewrite Hp, Hf; simpl;
      now destruct fallback.
  - intros primary Hp Hne; rewrite Hp; simpl; now destruct primary.
  - destruct (r !! "Race/Training") as [[[|c s]|]|]; simpl;
      intros Ht; try discriminate; reflexivity.
Qed.

(** An empty "Race/Training" cell beside a "race_training" cell reading
    " R ". *)
Lemma segment_fallback_witness :
  let r := row_of [("brand", Some (lit "Swix"));
                   ("Race/Training", Some (lit ""));
                   ("race_training", Some (lit " R "))] in
  exists p, process_row (U := latin1_db) r 0 = Ok (Some p)
            /\ p_segment p = lit "race".
Proof.
  intros r.
  destruct (process_row (U := latin1_db) r 0) as [[p|]|e] eqn:E;
    try (vm_compute in E; discriminate).
  exists p. split; [reflexivity|].
  destruct (segment_falls_back_by_value r 0 p E) as [F _].
  rewrite (F (lit " R ")); [reflexivity | right; reflexivity | reflexivity | discriminate].
Defined.

(** ** parse_number *)

Lemma In_lstrip_by (sp : codepoint -> bool) (c : codepoint) (s : str) :
  In c s -> sp c = false -> In c (lstrip_by sp s).
Proof.
  intros H Hc. induction s as [|d s IH]; simpl in *; [easy|].
  destruct (sp d) eqn:E; [|exact H].
  destruct H as [-> | H]; [congruence | auto].
Qed.

Lemma In_rstrip_by (sp : codepoint -> bool) (c : codepoint) (s : str) :
  In c s -> sp c = false -> In c (rstrip_by sp s).
Proof.
  intros H Hc. unfold rstrip_by. apply in_rev.
  rewrite rev_involutive. apply In_lstrip_by; [now apply in_rev in H | easy].
Qed.

Lemma In_strip (c : codepoint) (s : str) :
  In c s -> isspace c = false -> In c (strip s).
Proof. intros H Hc. apply In_rstrip_by; [now apply In_lstrip_by | easy]. Qed.

Lemma In_replace_char (a b c : codepoint) (s : str) :
  In c s -> c <> a -> In c (replace_char a b s).
Proof.
  intros H Hc. unfold replace_char. apply in_map_iff. exists c.
  split; [|easy]. now apply N.eqb_neq in Hc as ->.
Qed.

Lemma In_remove_char (a c : codepoint) (s : str) :
  In c s -> c <> a -> In c (remove_char a s).
Proof.
  intros H Hc. unfold remove_char. apply filter_In. split; [easy|].
  now apply N.eqb_neq in Hc as ->.
Qed.

(** The three removals of [parse_number] as one pass. *)
Lemma remove_char_filter (s : str) :
  remove_char (chr "c") (remove_char (chr "C") (remove_char DEGREE_SIGN s))
  = List.filter
      (fun ch => negb (existsb (N.eqb ch) [DEGREE_SIGN; chr "C"; chr "c"])) s.
Proof.
  unfold remove_char. induction s as [|d s IH]; simpl; [reflexivity|].
  destruct (d =? DEGREE_SIGN) eqn:E1; simpl; [exact IH|].
  destruct (d =? chr "C") eqn:E2; simpl; [exact IH|].
  destruct (d =? chr "c") eqn:E3; simpl; [exact IH|].
  now rewrite IH.
Qed.

Lemma py_float_raises `{U : unicode_db} (s : str) (e : exn) :
  py_float s = Raise e -> e = ValueError.
Proof.
  unfold py_float.
  destruct (float_text s) as [t|]; [|now intros [= <-]].
  destruct (parse_decimal t); [discriminate|].
  destruct (parse_inf_nan t); [discriminate | now intros [= <-]].
Qed.

Lemma int_of_float_integral (x : spec_float) :
  float_is_integer x = true -> int_of_float x = Ok (float_integral_value x).
Proof.
  destruct x as [s|s| |s m e]; simpl; try easy.
  intros _. f_equal. f_equal.
  destruct (Z.leb_spec 0 e) as [He|He].
  - now rewrite Z.shiftl_mul_pow2.
  - rewrite Z.shiftl_div_pow2 by lia. reflexivity.
Qed.

(** The integer returned for an integral float has the float's value:
    [m * 2^e] when [e >= 0], and [m = z * 2^(-e)] when [e < 0]. *)
Lemma float_integral_value_exact (s : bool) (m : positive) (e : Z) :
  float_is_integer (S754_finite s m e) = true ->
  (float_integral_value (S754_finite s m e) * 2 ^ Z.max 0 (- e)
   = cond_Zopp s (Z.pos m) * 2 ^ Z.max 0 e)%Z.
Proof.
  simpl. intros H.
  assert (cond_opp_mul : forall b x y,
             (cond_Zopp b x * y = cond_Zopp b (x * y))%Z).
  { intros [] ? ?; simpl; lia. }
  rewrite !cond_opp_mul. f_equal.
  destruct (Z.leb_spec 0 e) as [He|He].
  - rewrite Z.shiftl_mul_pow2 by lia.
    rewrite (Z.max_l 0 (- e)), (Z.max_r 0 e) by lia. simpl. lia.
  - simpl in H. apply Z.eqb_eq in H.
    rewrite Z.shiftl_div_pow2 by lia.
    rewrite (Z.max_r 0 (- e)), (Z.max_l 0 e) by lia.
    rewrite Z.pow_0_r, Z.mul_1_r.
    pose proof (Z.div_mod (Z.pos m) (2 ^ (- e))) as D.
    rewrite H in D. lia.
Qed.

Lemma parse_number_no_raise `{U : unicode_db} (v : option str) (e : exn) :
  parse_number v <> Raise e.
Proof.
  destruct v as [s|]; simpl; [|discriminate].
  destruct (is_empty (strip s)); [discriminate|].
  destruct (py_float _) as [x|e'] eqn:E.
  - destruct (float_is_integer x) eqn:I; [|discriminate].
    now rewrite (int_of_float_integral x I).
  - apply py_float_raises in E as ->. discriminate.
Qed.

Lemma parse_number_refines `{U : unicode_db} (s : str) :
  parse_number (Some s) = Ok (spec_parse_number s).
Proof.
  unfold parse_number, spec_parse_number, normalize_number.
  destruct (forallb isspace s) eqn:W.
  - apply strip_nil in W as ->. reflexivity.
  - destruct (strip s) as [|c t] eqn:S.
    + apply strip_nil in S. congruence.
    + simpl is_empty. cbv iota. rewrite remove_char_filter.
      destruct (py_float _) as [x|e] eqn:E.
      * destruct (float_is_integer x) eqn:I; [|reflexivity].
        now rewrite (int_of_float_integral x I).
      * now apply py_float_raises in E as ->.
Qed.

Lemma spec_parse_number_trimmed `{U : unicode_db} (s : str) :
  spec_parse_number s = spec_number_of_trimmed (strip s).
Proof.
  unfold spec_parse_number, spec_number_of_trimmed.
  destruct (forallb isspace s) eqn:W.
  - now apply strip_nil in W as ->.
  - destruct (strip s) eqn:S; [|reflexivity].
    apply strip_nil in S. congruence.
Qed.

(** C3: on a string, [parse_number] trims, replaces the unicode minus,
    removes degree signs and the letters C and c, replaces commas by
    periods, and parses what is left as a real number; it returns [None] for
    an empty or white-space-only text and when the parse fails; an integral
    value is returned as the integer of that value, never as a float.  The
    trimming is that of the white space at the two ends, whatever white
    space it is, and of nothing inside: with [t] the text between the white
    space at the two ends of [s], the result is that of the later steps on
    [t], and padding with white space does not change it.
    "−5,0°C" gives -5, "12.5" gives 12.5, "" and "abc" give [None]; so do
    " -5 ", "5" after a file separator, 12.5 between a tab and a no-break
    space; white space alone gives [None], and so does "1 2", whose space
    is inside. *)
Theorem parse_number_steps `{U : unicode_db} :
  (forall s, parse_number (Some s) = Ok (spec_parse_number s))
  /\ (forall s,
        match parse_number (Some s) with
        | Ok (Some (PyFloat x)) => float_is_integer x = false
        | Ok (Some (PyInt z)) =>
            exists x, py_float (normalize_number (strip s)) = Ok x
                      /\ float_is_integer x = true
                      /\ z = float_integral_value x
        | Ok None => True
        | Raise _ => False
        end)
  /\ (forall s, trimmed_of s (strip s))
  /\ (forall s t, trimmed_of s t ->
        parse_number (Some s) = Ok (spec_number_of_trimmed t))
  /\ (forall a s b,
        forallb isspace a = true -> forallb isspace b = true ->
        parse_number (Some (a ++ s ++ b)) = parse_number (Some s))
  /\ (forall s, forallb isspace s = true -> parse_number (Some s) = Ok None)
  /\ parse_number (Some (MINUS_SIGN :: lit "5,0" ++ DEGREE_SIGN :: lit "C"))
     = Ok (Some (PyInt (-5)))
  /\ parse_number (Some (lit "12.5")) = Ok (Some (PyFloat float_12_5))
  /\ parse_number (Some (lit "")) = Ok None
  /\ parse_number (Some (lit "abc")) = Ok None
  /\ parse_number (Some (lit " -5 ")) = Ok (Some (PyInt (-5)))
  /\ parse_number (Some (FILE_SEPARATOR :: lit "5")) = Ok (Some (PyInt 5))
  /\ parse_number (Some (TAB :: lit "12.5" ++ [NBSP]))
     = Ok (Some (PyFloat float_12_5))
  /\ parse_number (Some (IDEOGRAPHIC_SPACE :: MINUS_SIGN :: lit "5,0"
                           ++ DEGREE_SIGN :: lit "C" ++ [NEXT_LINE; LINE_FEED]))
     = Ok (Some (PyInt (-5)))
  /\ parse_number (Some [TAB; NBSP; LINE_FEED]) = Ok None
  /\ parse_number (Some (lit "1 2")) = Ok None
  /\ parse_number (Some (lit "- 5")) = Ok None.
Proof.
  split; [exact parse_number_refines|]. split.
  { intros s. destruct (parse_number (Some s)) as [[[z|x]|]|e] eqn:E; trivial.
    + simpl in E. destruct (is_empty (strip s)); [discriminate|].
      destruct (py_float _) as [y|e] eqn:F.
      * destruct (float_is_integer y) eqn:I; [|discriminate].
        rewrite (int_of_float_integral y I) in E. simpl in E.
        injection E as <-. now exists y.
      * now destruct e.
    + simpl in E. destruct (is_empty (strip s)); [discriminate|].
      destruct (py_float _) as [y|e] eqn:F.
      * destruct (float_is_integer y) eqn:I.
        -- now rewrite (int_of_float_integral y I) in E.
        -- now injection E as <-.
      * now destruct e.
    + now apply parse_number_no_raise in E. }
  split; [exact strip_trimmed_of|]. split.
  { intros s t H. rewrite parse_number_refines, spec_parse_number_trimmed.
    now rewrite (trimmed_of_strip s t H). }
  split.
  { intros a s b Ha Hb. unfold parse_number.
    now rewrite (strip_padded a s b Ha Hb). }
  split.
  { intros s Hs. unfold parse_number.
    now rewrite (proj2 (strip_nil s) Hs). }
  repeat split; vm_compute; reflexivity.
Qed.

(** ** Letters in the text of a number *)

Lemma span_spec (p : codepoint -> bool) (s a b : str) :
  span p s = (a, b) -> s = a ++ b /\ forallb p a = true.
Proof.
  revert a b. induction s as [|c s IH]; simpl; intros a b.
  - now intros [= <- <-].
  - destruct (p c) eqn:E.
    + destruct (span p s) as [a' b']. intros [= <- <-].
      destruct (IH a' b' eq_refl) as [-> H]. simpl. now rewrite E.
    + now intros [= <- <-].
Qed.

Lemma read_sign_spec (s r : str) (neg : bool) :
  read_sign s = (neg, r) ->
  s = r \/ exists c, s = c :: r /\ (c = chr "-" \/ c = chr "+").
Proof.
  destruct s as [|c s]; simpl; [intros [= _ <-]; now left|].
  destruct (N.eqb_spec c (chr "-")); [intros [= _ <-]; right; eauto|].
  destruct (N.eqb_spec c (chr "+")); [intros [= _ <-]; right; eauto|].
  intros [= _ <-]; now left.
Qed.

Lemma forallb_digit_decimal (s : str) :
  forallb is_digit s = true -> forallb decimal_char s = true.
Proof.
  rewrite !forallb_forall. intros H c Hc. unfold decimal_char.
  now rewrite (H c Hc).
Qed.

Lemma read_sign_chars (s r : str) (neg : bool) :
  read_sign s = (neg, r) ->
  forallb decimal_char r = true -> forallb decimal_char s = true.
Proof.
  intros H Hr. apply read_sign_spec in H as [-> | (c & -> & [-> | ->])];
    simpl; auto.
Qed.

Lemma parse_exponent_chars (s : str) (e : Z) :
  parse_exponent s = Some e -> forallb decimal_char s = true.
Proof.
  destruct s as [|c s]; simpl; [easy|].
  destruct ((c =? chr "e") || (c =? chr "E")) eqn:Ee; [|discriminate].
  destruct (read_sign s) as [eneg r1] eqn:Es.
  destruct (span is_digit r1) as [ed r2] eqn:Ed.
  destruct ed as [|d ed]; [discriminate|].
  destruct r2; [|discriminate]. intros _.
  apply span_spec in Ed as [-> Hd]. rewrite app_nil_r in Es.
  apply andb_true_iff. split.
  - unfold decimal_char. simpl.
    apply orb_true_iff in Ee as [-> | ->];
      rewrite ?orb_true_r; reflexivity.
  - eapply read_sign_chars; [exact Es|]. now apply forallb_digit_decimal.
Qed.

Lemma parse_decimal_chars (t : str) (d : decimal) :
  parse_decimal t = Some d -> forallb decimal_char t = true.
Proof.
  unfold parse_decimal.
  destruct (read_sign t) as [neg s1] eqn:Es.
  destruct (span is_digit s1) as [ip s2] eqn:Ei.
  apply span_spec in Ei as [-> Hip].
  intros H. eapply read_sign_chars; [exact Es|].
  rewrite forallb_app, (forallb_digit_decimal ip Hip). simpl.
  destruct s2 as [|c r].
  - reflexivity.
  - destruct (N.eqb_spec c (chr ".")) as [-> | Hc].
    + destruct (span is_digit r) as [fp s3] eqn:Ef.
      apply span_spec in Ef as [-> Hfp].
      destruct (ip ++ fp); [discriminate|].
      destruct (parse_exponent s3) eqn:Ee; [|discriminate].
      simpl. rewrite forallb_app, (forallb_digit_decimal fp Hfp).
      now apply parse_exponent_chars in Ee.
    + destruct (ip ++ []); [discriminate|].
      destruct (parse_exponent (c :: r)) eqn:Ee; [|discriminate].
      now apply parse_exponent_chars in Ee.
Qed.

Lemma mapM_ascii_In `{U : unicode_db} (s a : str) (c : codepoint) :
  mapM ascii_of_codepoint s = Some a ->
  In c s -> (c <? 128) = true -> In c a.
Proof.
  intros H Hc Hlt. apply mapM_Some_1 in H.
  induction H as [|x y s a Hxy _ IH]; simpl in *; [easy|].
  destruct Hc as [-> | Hc]; [|right; auto].
  unfold ascii_of_codepoint in Hxy. rewrite Hlt in Hxy.
  left. congruence.
Qed.

Lemma mapM_ascii_foreign `{U : unicode_db} (s : str) (c : codepoint) :
  In c s -> ascii_of_codepoint c = None -> mapM ascii_of_codepoint s = None.
Proof.
  intros Hc Hn. destruct (mapM ascii_of_codepoint s) as [a|] eqn:E; [|easy].
  exfalso. apply mapM_Some_1 in E.
  induction E as [|x y s a Hxy _ IH]; simpl in *; [easy|].
  destruct Hc as [-> | Hc]; [congruence | auto].
Qed.

Lemma drop_underscores_In (c : codepoint) (s b : str) (prev : codepoint) :
  drop_underscores prev s = Some b ->
  In c s -> c <> chr "_" -> In c b.
Proof.
  intros H Hc Hne. revert prev b H.
  induction s as [|d s IH]; simpl in *; [easy|]. intros prev b.
  destruct (N.eqb_spec d (chr "_")) as [-> | Hd].
  - destruct Hc as [<- | Hc]; [easy|].
    destruct (is_digit prev); [|discriminate]. now apply IH.
  - destruct ((prev =? chr "_") && negb (is_digit d)); [discriminate|].
    destruct (drop_underscores d s) as [b'|] eqn:E; [|discriminate].
    intros [= <-]. destruct Hc as [-> | Hc]; [now left | right].
    eapply IH; eauto.
Qed.

(** A character that [float()] keeps reaches the text it parses. *)
Lemma float_text_In `{U : unicode_db} (s t : str) (c : codepoint) :
  float_text s = Some t ->
  In c s -> (c <? 128) = true -> c <> chr "_" -> c_isspace c = false ->
  In c t.
Proof.
  unfold float_text. intros H Hc Hlt Hu Hs.
  destruct (mapM ascii_of_codepoint s) as [a|] eqn:Ea; [|discriminate].
  simpl in H. destruct (drop_underscores 0 a) as [b|] eqn:Eb; [|discriminate].
  simpl in H. injection H as <-.
  apply In_rstrip_by; [apply In_lstrip_by|]; trivial.
  eapply drop_underscores_In; [exact Eb| |exact Hu].
  eapply mapM_ascii_In; eauto.
Qed.

(** A property checked on the 128 ASCII code points holds of each. *)
Lemma ascii_forall (P : codepoint -> bool) :
  forallb P (map N.of_nat (seq 0 128)) = true ->
  forall c, (c <? 128) = true -> P c = true.
Proof.
  intros H c Hc. rewrite forallb_forall in H. apply H.
  apply in_map_iff. exists (N.to_nat c). split; [apply N2Nat.id|].
  apply in_seq. apply N.ltb_lt in Hc. lia.
Qed.

Lemma ascii_stray_facts (c : codepoint) :
  (c <? 128) = true ->
  is_ascii_letter c
  && negb (existsb (N.eqb c) [chr "C"; chr "c"; chr "E"; chr "e"]) = true ->
  isspace c = false /\ c_isspace c = false /\ decimal_char c = false
  /\ c <> MINUS_SIGN /\ c <> DEGREE_SIGN /\ c <> chr "C" /\ c <> chr "c"
  /\ c <> chr "," /\ c <> chr "_".
Proof.
  intros Hlt Hs.
  pose (P := fun c =>
    implb (is_ascii_letter c
           && negb (existsb (N.eqb c) [chr "C"; chr "c"; chr "E"; chr "e"]))
          (negb (isspace c) && negb (c_isspace c) && negb (decimal_char c)
           && negb (c =? MINUS_SIGN) && negb (c =? DEGREE_SIGN)
           && negb (c =? chr "C") && negb (c =? chr "c")
           && negb (c =? chr ",") && negb (c =? chr "_"))).
  assert (H : P c = true) by (apply ascii_forall; [vm_compute; reflexivity | exact Hlt]).
  unfold P in H. rewrite Hs in H. simpl in H.
  repeat (apply andb_true_iff in H as [H ?]).
  repeat match goal with
         | K : negb _ = true |- _ => apply negb_true_iff in K
         end.
  repeat split; trivial; now apply N.eqb_neq.
Qed.

(** A stray letter of the input is still there in the text given to
    [float()]. *)
Lemma normalize_number_In (c : codepoint) (s : str) :
  In c s -> isspace c = false ->
  c <> MINUS_SIGN -> c <> DEGREE_SIGN -> c <> chr "C" -> c <> chr "c" ->
  c <> chr "," ->
  In c (normalize_number (strip s)).
Proof.
  intros. unfold normalize_number.
  repeat first [apply In_replace_char | apply In_remove_char]; trivial.
  now apply In_strip.
Qed.

Lemma read_sign_shape (s r : str) (neg : bool) :
  read_sign s = (neg, r) -> exists sign, s = sign ++ r /\ is_sign sign.
Proof.
  intros H. unfold is_sign.
  apply read_sign_spec in H as [-> | (c & -> & [-> | ->])].
  - exists []. auto.
  - exists [chr "-"]. auto.
  - exists [chr "+"]. auto.
Qed.

Lemma parse_exponent_shape (s : str) (z : Z) :
  parse_exponent s = Some z ->
  s = []
  \/ exists e esign ed,
       s = e :: esign ++ ed
       /\ (e = chr "e" \/ e = chr "E")
       /\ is_sign esign /\ forallb is_digit ed = true /\ ed <> [].
Proof.
  destruct s as [|c s]; [now left|]. cbn [parse_exponent]. right.
  destruct ((c =? chr "e") || (c =? chr "E")) eqn:Ee; [|discriminate].
  destruct (read_sign s) as [eneg r1] eqn:Es.
  destruct (span is_digit r1) as [ed r2] eqn:Ed.
  destruct ed as [|d ed]; [discriminate|].
  destruct r2; [|discriminate].
  apply span_spec in Ed as [-> Hd]. rewrite app_nil_r in Es.
  apply read_sign_shape in Es as (esign & -> & Hs).
  exists c, esign, (d :: ed). repeat split; trivial; [|discriminate].
  apply orb_true_iff in Ee as [Ee | Ee]; apply N.eqb_eq in Ee; auto.
Qed.

Lemma forallb_digit_mantissa (s : str) :
  forallb is_digit s = true -> forallb mantissa_char s = true.
Proof.
  rewrite !forallb_forall. intros H c Hc. unfold mantissa_char.
  now rewrite (H c Hc).
Qed.

Lemma is_sign_mantissa (s : str) :
  is_sign s -> forallb mantissa_char s = true.
Proof. intros [-> | [-> | ->]]; reflexivity. Qed.

(** A text that [float()] reads as a decimal numeral is a numeral without
    exponent or one in exponent notation. *)
Lemma parse_decimal_shape (t : str) (d : decimal) :
  parse_decimal t = Some d ->
  forallb mantissa_char t = true \/ exponent_notation t.
Proof.
  unfold parse_decimal.
  destruct (read_sign t) as [neg s1] eqn:Es.
  apply read_sign_shape in Es as (sign & -> & Hsign).
  destruct (span is_digit s1) as [ip s2] eqn:Ei.
  apply span_spec in Ei as [-> Hip].
  destruct s2 as [|c r].
  - intros _. left. rewrite app_nil_r, forallb_app.
    now rewrite (is_sign_mantissa sign Hsign), (forallb_digit_mantissa ip Hip).
  - destruct (N.eqb_spec c (chr ".")) as [-> | Hc].
    + destruct (span is_digit r) as [fp s3] eqn:Ef.
      apply span_spec in Ef as [-> Hfp].
      destruct (ip ++ fp) as [|x l] eqn:Eds; [discriminate|].
      destruct (parse_exponent s3) as [z|] eqn:Ee; [|discriminate].
      intros _.
      apply parse_exponent_shape in Ee
        as [-> | (e & esign & ed & -> & He & Hes & Hed & Hne)].
      * left. rewrite app_nil_r, !forallb_app. cbn [forallb].
        rewrite (is_sign_mantissa sign Hsign),
          (forallb_digit_mantissa ip Hip), (forallb_digit_mantissa fp Hfp).
        reflexivity.
      * right. exists sign, ip, [chr "."], fp, e, esign, ed.
        repeat split; auto. rewrite Eds. discriminate.
    + destruct (ip ++ []) as [|x l] eqn:Eds; [discriminate|].
      destruct (parse_exponent (c :: r)) as [z|] eqn:Ee; [|discriminate].
      intros _.
      apply parse_exponent_shape in Ee
        as [Ee | (e & esign & ed & -> & He & Hes & Hed & Hne)];
        [discriminate|].
      right. exists sign, ip, [], [], e, esign, ed.
      repeat split; auto. rewrite Eds. discriminate.
Qed.

Lemma ascii_letter_facts (c : codepoint) :
  (c <? 128) = true ->
  is_ascii_letter c && negb (existsb (N.eqb c) [chr "C"; chr "c"]) = true ->
  isspace c = false /\ c_isspace c = false /\ mantissa_char c = false
  /\ c <> MINUS_SIGN /\ c <> DEGREE_SIGN /\ c <> chr "C" /\ c <> chr "c"
  /\ c <> chr "," /\ c <> chr "_".
Proof.
  intros Hlt Hs.
  pose (P := fun c =>
    implb (is_ascii_letter c && negb (existsb (N.eqb c) [chr "C"; chr "c"]))
          (negb (isspace c) && negb (c_isspace c) && negb (mantissa_char c)
           && negb (c =? MINUS_SIGN) && negb (c =? DEGREE_SIGN)
           && negb (c =? chr "C") && negb (c =? chr "c")
           && negb (c =? chr ",") && negb (c =? chr "_"))).
  assert (H : P c = true) by (apply ascii_forall; [vm_compute; reflexivity | exact Hlt]).
  unfold P in H. rewrite Hs in H. simpl in H.
  repeat (apply andb_true_iff in H as [H ?]).
  repeat match goal with
         | K : negb _ = true |- _ => apply negb_true_iff in K
         end.
  repeat split; trivial; now apply N.eqb_neq.
Qed.

(** What [float()] reads as inf, infinity or nan is not a finite number. *)
Lemma parse_inf_nan_not_finite (t : str) (x : spec_float) :
  parse_inf_nan t = Some x -> is_finite x = false.
Proof.
  unfold parse_inf_nan. destruct (read_sign t) as [neg r].
  destruct (_ || _); [now intros [= <-]|].
  destruct (str_eqb _ _); [now intros [= <-] | discriminate].
Qed.

(** A code point outside ASCII that is no digit, no white space, no degree
    sign and no unicode minus makes [float()] refuse the text. *)
Lemma foreign_letter_refused `{U : unicode_db} (s : str) (c : codepoint) :
  In c s -> (c <? 128) = false ->
  negb (isspace c) && negb (c =? DEGREE_SIGN) && negb (c =? MINUS_SIGN)
  && match todecimal c with Some _ => false | None => true end = true ->
  parse_number (Some s) = Ok None.
Proof.
  intros Hc Hlt Hst. unfold parse_number.
  destruct (is_empty (strip s)); [reflexivity|].
  repeat (apply andb_true_iff in Hst as [Hst ?]).
  repeat match goal with
         | K : negb _ = true |- _ => apply negb_true_iff in K
         end.
  assert (Hn : ascii_of_codepoint c = None).
  { unfold ascii_of_codepoint. rewrite Hlt, Hst.
    now destruct (todecimal c). }
  assert (Hin : In c (normalize_number (strip s))).
  { apply normalize_number_In; trivial;
      try (now apply N.eqb_neq);
      intros ->; vm_compute in Hlt; discriminate. }
  unfold py_float, float_text.
  now rewrite (mapM_ascii_foreign _ c Hin Hn).
Qed.

(** With a letter other than C, c, E and e in the string, [parse_number]
    returns [None] or the infinity or NaN that the text spells. *)
Lemma stray_letter_refused `{U : unicode_db} (s : str) (c : codepoint) :
  In c s -> stray_letter c = true ->
  match parse_number (Some s) with
  | Ok None => True
  | Ok (Some (PyFloat x)) =>
      ((exists neg, x = S754_infinity neg) \/ x = S754_nan)
      /\ exists t, float_text (normalize_number (strip s)) = Some t
                   /\ parse_inf_nan t = Some x
  | _ => False
  end.
Proof.
  intros Hc Hst.
  unfold stray_letter in Hst. destruct (c <? 128) eqn:Hlt.
  - unfold parse_number. destruct (is_empty (strip s)); [trivial|].
    destruct (ascii_stray_facts c Hlt Hst)
      as (Hsp & Hcsp & Hdec & Hm & Hd & HC & Hc' & Hcomma & Hu).
    assert (Hin : In c (normalize_number (strip s)))
      by now apply normalize_number_In.
    unfold py_float.
    destruct (float_text _) as [t|] eqn:Et; [|trivial].
    assert (Ht : In c t) by (eapply float_text_In; eauto).
    destruct (parse_decimal t) as [d|] eqn:Ed.
    { apply parse_decimal_chars in Ed. rewrite forallb_forall in Ed.
      specialize (Ed c Ht). congruence. }
    destruct (parse_inf_nan t) as [x|] eqn:Ex; [|trivial].
    assert (Hx : (exists neg, x = S754_infinity neg) \/ x = S754_nan).
    { unfold parse_inf_nan in Ex. destruct (read_sign t) as [neg r].
      destruct (_ || _); [injection Ex as <-; eauto|].
      destruct (str_eqb _ _); [injection Ex as <-; auto | discriminate]. }
    destruct Hx as [[neg ->] | ->]; simpl; eauto 6.
  - now rewrite (foreign_letter_refused s c Hc Hlt Hst).
Qed.

(** C4, as the code has it: [parse_number] raises on no string; on a string
    with a letter other than C and c it returns [None], unless the text
    that [float()] reads spells inf, infinity or nan, which gives that
    infinity or NaN as a float, or is a numeral in exponent notation (a
    mantissa with at least one digit, one E or e, an optional sign and at
    least one digit up to the end) that [float()] accepts; and with a letter
    other than C, c, E and e only the first exception is left.  So "5e",
    "e5", "1ee5", "5E+", "1.e", "abc" and "-5 grader" give [None]. *)
Theorem parse_number_letters `{U : unicode_db} :
  (forall s e, parse_number (Some s) <> Raise e)
  /\ (forall s c, In c s -> other_letter c = true ->
        match parse_number (Some s) with
        | Ok None => True
        | Ok (Some v) =>
            exists t,
              float_text (normalize_number (strip s)) = Some t
              /\ ((exists x, parse_inf_nan t = Some x
                             /\ v = PyFloat x /\ is_finite x = false)
                  \/ (exponent_notation t
                      /\ exists d, parse_decimal t = Some d))
        | Raise _ => False
        end)
  /\ (forall s c, In c s -> stray_letter c = true ->
        match parse_number (Some s) with
        | Ok None => True
        | Ok (Some (PyFloat x)) =>
            ((exists neg, x = S754_infinity neg) \/ x = S754_nan)
            /\ exists t, float_text (normalize_number (strip s)) = Some t
                         /\ parse_inf_nan t = Some x
        | _ => False
        end)
  /\ parse_number (Some (lit "5e")) = Ok None
  /\ parse_number (Some (lit "e5")) = Ok None
  /\ parse_number (Some (lit "1ee5")) = Ok None
  /\ parse_number (Some (lit "5E+")) = Ok None
  /\ parse_number (Some (lit "1.e")) = Ok None
  /\ parse_number (Some (lit "1e5x")) = Ok None
  /\ parse_number (Some (lit "1e 5")) = Ok None
  /\ parse_number (Some (lit "e")) = Ok None
  /\ parse_number (Some (lit "infinit")) = Ok None
  /\ parse_number (Some (lit "abc")) = Ok None
  /\ parse_number (Some (lit "-5 grader")) = Ok None.
Proof.
  split; [intros s e; apply parse_number_no_raise|]. split.
  { intros s c Hc Hst.
    unfold other_letter in Hst. destruct (c <? 128) eqn:Hlt;
      [|now rewrite (foreign_letter_refused s c Hc Hlt Hst)].
    destruct (ascii_letter_facts c Hlt Hst)
      as (Hsp & Hcsp & Hman & Hm & Hd & HC & Hc' & Hcomma & Hu).
    assert (Hin : In c (normalize_number (strip s)))
      by now apply normalize_number_In.
    unfold parse_number. destruct (is_empty (strip s)); [trivial|].
    unfold py_float.
    destruct (float_text _) as [t|] eqn:Et; [|trivial].
    assert (Ht : In c t) by (eapply float_text_In; eauto).
    destruct (parse_decimal t) as [d|] eqn:Ed.
    - assert (Hexp : exponent_notation t).
      { destruct (parse_decimal_shape t d Ed) as [Hall | Hexp]; [|exact Hexp].
        rewrite forallb_forall in Hall. specialize (Hall c Ht). congruence. }
      destruct (float_is_integer (float_of_decimal d)) eqn:I.
      + rewrite (int_of_float_integral _ I). simpl. eauto 6.
      + eauto 6.
    - destruct (parse_inf_nan t) as [x|] eqn:Ex; [|trivial].
      pose proof (parse_inf_nan_not_finite t x Ex) as Hx.
      assert (I : float_is_integer x = false) by now destruct x.
      rewrite I. exists t. split; [reflexivity|]. left. now exists x. }
  split; [exact stray_letter_refused|].
  repeat split; vm_compute; reflexivity.
Qed.

(** The e of "5e", which is no numeral in exponent notation. *)
Lemma parse_number_letters_witness :
  In (chr "e") (lit "5e")
  /\ other_letter (U := latin1_db) (chr "e") = true
  /\ match parse_number (U := latin1_db) (Some (lit "5e")) with
     | Ok None => True
     | Ok (Some v) =>
         exists t,
           float_text (U := latin1_db) (normalize_number (strip (lit "5e")))
           = Some t
           /\ ((exists x, parse_inf_nan t = Some x
                          /\ v = PyFloat x /\ is_finite x = false)
               \/ (exponent_notation t
                   /\ exists d, parse_decimal t = Some d))
     | Raise _ => False
     end.
Proof.
  assert (Hin : In (chr "e") (lit "5e")) by (vm_compute; tauto).
  split; [exact Hin|]. split; [reflexivity|].
  exact (proj1 (proj2 (parse_number_letters (U := latin1_db)))
           (lit "5e") (chr "e") Hin eq_refl).
Defined.

(** C4, as stated, fails on a number in exponent notation and on the
    spellings of infinity and NaN: each has a letter other than C and c, and
    is parsed. *)
Lemma parse_number_accepts_letters :
  has_letter_other_than_C (lit "1e5") = true
  /\ parse_number (U := latin1_db) (Some (lit "1e5")) = Ok (Some (PyInt 100000))
  /\ has_letter_other_than_C (lit "inf") = true
  /\ parse_number (U := latin1_db) (Some (lit "inf"))
     = Ok (Some (PyFloat (S754_infinity false)))
  /\ has_letter_other_than_C (lit "NaN") = true
  /\ parse_number (U := latin1_db) (Some (lit "NaN")) = Ok (Some (PyFloat S754_nan)).
Proof. repeat split; vm_compute; reflexivity. Qed.

(** ** The record assembler *)

Lemma method_strip_Ok (r : row) (k : string) :
  r !! k <> Some None <->
  exists s, method_strip (get_or_empty r k) = Ok s.
Proof.
  unfold get_or_empty. destruct (r !! k) as [[s|]|]; simpl; split;
    eauto; try congruence.
  intros [s H]. discriminate.
Qed.

Lemma parse_number_Ok `{U : unicode_db} (v : option str) :
  exists o, parse_number v = Ok o.
Proof.
  destruct (parse_number v) as [o|e] eqn:E; [eauto|].
  now apply parse_number_no_raise in E.
Qed.

Lemma int_of_float_finite (x : spec_float) :
  is_finite x = true <-> exists z, int_of_float x = Ok z.
Proof.
  destruct x; simpl; split; eauto; try discriminate; intros [z H]; discriminate.
Qed.

(** The loop body runs to completion exactly on the sound rows. *)
Lemma process_row_completes `{U : unicode_db} (r : row) (n : nat) :
  row_is_sound r <-> exists o, process_row r n = Ok o.
Proof.
  unfold row_is_sound, STRIPPED_COLUMNS. split.
  - intros [Hk Hp].
    assert (S : forall k, In k ["brand"; "line"; "code"; "product_name";
                                "type"; "image_file"] ->
                          exists s, method_strip (get_or_empty r k) = Ok s).
    { intros k Hin. apply method_strip_Ok. auto. }
    destruct (S "brand") as [brand Eb]; [simpl; tauto|].
    destruct (S "line") as [line El]; [simpl; tauto|].
    destruct (S "code") as [code Ec]; [simpl; tauto|].
    destruct (S "product_name") as [pn En]; [simpl; tauto|].
    destruct (S "type") as [ty Et]; [simpl; tauto|].
    destruct (S "image_file") as [im Ei]; [simpl; tauto|].
    destruct (parse_number_Ok (get r "temp_new_min")) as [t1 E1].
    destruct (parse_number_Ok (get r "temp_new_max")) as [t2 E2].
    destruct (parse_number_Ok (get r "temp_old_min")) as [t3 E3].
    destruct (parse_number_Ok (get r "temp_old_max")) as [t4 E4].
    destruct (parse_number_Ok (get r "temp_wet_min")) as [t5 E5].
    destruct (parse_number_Ok (get r "temp_wet_max")) as [t6 E6].
    destruct (parse_number_Ok (get r "priority")) as [pv Ep].
    assert (Hpr : exists z, match pv with
                            | Some v => int_of_number v
                            | None => Ok 70%Z
                            end = Ok z).
    { destruct pv as [[z|x]|]; simpl; eauto.
      apply int_of_float_finite. now apply Hp. }
    destruct Hpr as [z Ez].
    unfold process_row, mbind, res_bind.
    rewrite Eb, El, Ec, En, Et, E1, E2, E3, E4, E5, E6, Ei, Ep, Ez.
    destruct (_ && _); eauto.
  - intros [o H]. unfold process_row, mbind, res_bind in H.
    repeat match type of H with
           | match ?x with Ok _ => _ | Raise _ => _ end = _ =>
               let E := fresh "E" in destruct x eqn:E; [|discriminate]
           end.
    split.
    + intros k Hk. apply method_strip_Ok. simpl in Hk.
      repeat (destruct Hk as [<- | Hk]; [eauto|]). easy.
    + intros x Hx. apply int_of_float_finite.
      match goal with
      | K : parse_number _ = Ok ?pv,
        K' : match ?pv with Some _ => _ | None => _ end = Ok ?z |- _ =>
          assert (Epv : pv = Some (PyFloat x)) by congruence;
          rewrite Epv in K'; exists z; exact K'
      end.
Qed.

(** C1 fails on the code: a priority cell reading "inf" or "nan" makes
    [int()] raise, and a line shorter than the header leaves [None] under
    "brand", on which [.strip()] raises; the turn of the loop does not
    complete.  (The notes and segment cells are guarded by [or ""], and
    [parse_number] and [parse_bool] test for [None].) *)
Theorem process_row_raises `{U : unicode_db} :
  process_row (row_of [("brand", Some (lit "Swix"));
                       ("priority", Some (lit "inf"))]) 0
  = Raise OverflowError
  /\ process_row (row_of [("brand", Some (lit "Swix"));
                          ("priority", Some (lit "nan"))]) 0
     = Raise ValueError
  /\ process_row (row_of [("code", Some (lit "VP30")); ("brand", None)]) 0
     = Raise AttributeError
  /\ process_row (row_of [("brand", Some (lit "Swix"));
                          ("code", Some (lit "VP30"));
                          ("image_file", None)]) 0
     = Raise AttributeError.
Proof. repeat split; vm_compute; reflexivity. Qed.

(** ** The loop over the rows *)

Lemma process_row_blank `{U : unicode_db} (r : row) (n : nat)
    (o : option product) :
  process_row r n = Ok o ->
  row_is_blank r = match o with None => true | Some _ => false end.
Proof.
  unfold process_row, mbind, res_bind. intros H.
  repeat match type of H with
         | match ?x with Ok _ => _ | Raise _ => _ end = _ =>
             let E := fresh "E" in destruct x eqn:E; [|discriminate]
         end.
  unfold row_is_blank.
  repeat match goal with
         | K : method_strip _ = Ok _ |- _ => rewrite K; clear K
         end.
  destruct (_ && _); now injection H as <-.
Qed.

Lemma process_row_active `{U : unicode_db} (r : row) (n : nat) (p : product) :
  process_row r n = Ok (Some p) -> p_active p = row_is_active r.
Proof.
  intros H. apply process_row_Some in H.
  destruct H as (? & ? & ? & ? & ? & ? & ? & ? & ? & ? & ? & ? & ? & ? & H).
  unfold row_is_active. tauto.
Qed.

(** The loop appends, in the order of the rows, one record for each row
    that is not blank. *)
Lemma process_rows_appends `{U : unicode_db} (rows : list row) :
  forall acc out,
    process_rows rows acc = Ok out ->
    exists new,
      out = acc ++ new
      /\ Forall2 assembled_from
           (List.filter (fun r => negb (row_is_blank r)) rows) new.
Proof.
  induction rows as [|r rows IH]; simpl; intros acc out H.
  - injection H as <-. exists []. split; [now rewrite app_nil_r | constructor].
  - unfold mbind, res_bind in H.
    destruct (process_row r (length acc)) as [o|e] eqn:E; [|discriminate].
    rewrite (process_row_blank r _ o E).
    destruct o as [p|]; simpl.
    + destruct (IH _ _ H) as (new & -> & F).
      exists (p :: new). split; [now rewrite <- app_assoc|].
      constructor; [now exists (length acc) | exact F].
    + exact (IH _ _ H).
Qed.

Lemma Forall2_filter_both {A B : Type} (R : A -> B -> Prop)
    (f : A -> bool) (g : B -> bool) (l : list A) (k : list B) :
  (forall x y, R x y -> f x = g y) ->
  Forall2 R l k -> Forall2 R (List.filter f l) (List.filter g k).
Proof.
  intros Hfg F. induction F as [|x y l k Hxy _ IH]; simpl; [constructor|].
  rewrite (Hfg x y Hxy). destruct (g y); [constructor|]; assumption.
Qed.

Lemma filter_filter_andb {A : Type} (f g : A -> bool) (l : list A) :
  List.filter g (List.filter f l) = List.filter (fun x => f x && g x) l.
Proof.
  induction l as [|x l IH]; simpl; [reflexivity|].
  destruct (f x); simpl; [destruct (g x); now rewrite IH | exact IH].
Qed.

(** The rows split into the blank ones, the kept ones and the inactive
    ones. *)
Lemma rows_partition (blank active : row -> bool) (rows : list row) :
  (length rows
   = length (List.filter blank rows)
     + length (List.filter (fun r => negb (blank r) && active r) rows)
     + length (List.filter (fun r => negb (blank r) && negb (active r)) rows))%nat.
Proof.
  induction rows as [|r rows IH]; simpl; [reflexivity|].
  destruct (blank r), (active r); simpl; lia.
Qed.

(** ** The driver *)

Section Driver.
Context {U : unicode_db}.
Variable json_dump : wax_data -> list Byte.byte.

Lemma main_missing_file (fs : files) :
  csv_rows fs = None -> main json_dump fs = (Raise FileNotFoundError, fs).
Proof. unfold main. now intros ->. Qed.

(** A run that raises leaves both files as they were. *)
Lemma main_raise_writes_nothing (fs fs' : files) (e : exn) :
  main json_dump fs = (Raise e, fs') -> fs' = fs.
Proof.
  unfold main. destruct (csv_rows fs); [|now intros [= _ <-]].
  destruct (process_rows _ _); [discriminate | now intros [= _ <-]].
Qed.

(** A run that ends well has written the whole document. *)
Lemma main_Ok (fs fs' : files) :
  main json_dump fs = (Ok tt, fs') <->
  exists rows all_products,
    csv_rows fs = Some rows
    /\ process_rows rows [] = Ok all_products
    /\ fs' = {| csv_rows := Some rows;
                out_json := Some (json_dump (build_wax_data
                                    (List.filter p_active all_products))) |}.
Proof.
  unfold main. split.
  - destruct (csv_rows fs) as [rows|] eqn:Er; [|discriminate].
    destruct (process_rows rows []) as [ps|e] eqn:Ep; [|discriminate].
    intros [= <-]. now exists rows, ps.
  - intros (rows & ps & -> & -> & ->). reflexivity.
Qed.

(** The run raises when the input is missing, and also when a row makes the
    loop raise. *)
Lemma main_raises_iff (fs : files) :
  (exists e, fst (main json_dump fs) = Raise e) <->
  csv_rows fs = None
  \/ exists rows e, csv_rows fs = Some rows /\ process_rows rows [] = Raise e.
Proof.
  unfold main. destruct (csv_rows fs) as [rows|]; simpl.
  - destruct (process_rows rows []) as [ps|e] eqn:E; simpl; split.
    + intros [e He]. discriminate.
    + intros [H | (rows' & e & [= <-] & H)]; [discriminate | congruence].
    + intros _. right. now exists rows, e.
    + intros _. now exists e.
  - split; [now left | now exists FileNotFoundError].
Qed.

(** C2: a row whose brand, code and product name are all empty once trimmed
    produces no record; and when [main] ends well on a table of [N] rows of
    which [K] are blank and [M] of the others have "active" parsed as false,
    what it has written at the output path is the serialisation of a
    document of version "2.0" with exactly [N - K - M] records, one for each
    remaining row, in the order of the rows.  C2 fails on the code for the
    tables on which the loop raises: with a blank row whose priority cell
    reads "inf" the run ends with OverflowError and no document is written,
    where the claim has the row skipped.  The defect is the one of the loop
    body: [int()] on an infinity, before the test for a blank row. *)
Theorem output_records :
  (forall r n p, row_is_blank r = true -> process_row r n <> Ok (Some p))
  /\ (forall fs fs',
        main json_dump fs = (Ok tt, fs') ->
        exists rows doc,
          csv_rows fs = Some rows
          /\ out_json fs' = Some (json_dump doc)
          /\ version doc = lit "2.0"
          /\ scope doc = lit "Classic grip " ++ [EN_DASH] ++ lit " new/old/wet"
          /\ length (products doc)
             = (length rows
                - length (List.filter row_is_blank rows)
                - length (List.filter
                            (fun r => negb (row_is_blank r)
                                      && negb (row_is_active r)) rows))%nat
          /\ Forall2 assembled_from
               (List.filter (fun r => negb (row_is_blank r) && row_is_active r)
                            rows)
               (products doc))
  /\ row_is_blank blank_row_inf = true
  /\ (forall previous,
        let fs := {| csv_rows := Some [blank_row_inf]; out_json := previous |} in
        main json_dump fs = (Raise OverflowError, fs))
  /\ (forall previous,
        let fs := {| csv_rows := Some (four_rows ++ [blank_row_inf]);
                     out_json := previous |} in
        main json_dump fs = (Raise OverflowError, fs)).
Proof.
  split.
  { intros r n p Hb E. apply process_row_blank in E. congruence. }
  split.
  { intros fs fs' H. unfold main in H.
    destruct (csv_rows fs) as [rows|] eqn:Er; [|discriminate].
    destruct (process_rows rows []) as [ps|e] eqn:Ep; [|discriminate].
    injection H as <-.
    exists rows, (build_wax_data (List.filter p_active ps)).
    split; [reflexivity|]. split; [reflexivity|].
    split; [reflexivity|]. split; [reflexivity|].
    apply process_rows_appends in Ep as (new & -> & F). simpl.
    assert (F' : Forall2 assembled_from
                   (List.filter (fun r => negb (row_is_blank r)
                                          && row_is_active r) rows)
                   (List.filter p_active new)).
    { rewrite <- filter_filter_andb.
      apply Forall2_filter_both; [|exact F].
      intros r p [n E]. symmetry. exact (process_row_active r n p E). }
    split; [|exact F'].
    apply Forall2_length in F'. rewrite <- F'.
    pose proof (rows_partition row_is_blank row_is_active rows). lia. }
  split; [reflexivity|].
  split; intros previous; vm_compute; reflexivity.
Qed.

(** C5 fails on the code: with the input file in place, a row whose
    priority cell reads "inf" ends the run with OverflowError and nothing
    written, so a missing file is not the only fatal case.  The defect is the
    one of the loop body: [int()] on an infinity. *)
Theorem main_raises_on_existing_file (previous : option (list Byte.byte)) :
  let fs := {| csv_rows := Some [row_of [("brand", Some (lit "Swix"));
                                          ("code", Some (lit "VP30"));
                                          ("priority", Some (lit "inf"))]];
               out_json := previous |} in
  main json_dump fs = (Raise OverflowError, fs)
  /\ main json_dump {| csv_rows := None; out_json := previous |}
     = (Raise FileNotFoundError, {| csv_rows := None; out_json := previous |}).
Proof. split; vm_compute; reflexivity. Qed.

(** C9: the run is a function of the input table alone.  What was at the
    output path before does not change how the run ends nor the bytes it
    writes, and running again on the files that a run left ends the same way
    and leaves the same files, byte for byte. *)
Theorem main_deterministic :
  (forall rows previous previous',
     let run := main json_dump {| csv_rows := rows; out_json := previous |} in
     let run' := main json_dump {| csv_rows := rows; out_json := previous' |} in
     fst run = fst run'
     /\ (fst run = Ok tt -> out_json (snd run) = out_json (snd run')))
  /\ (forall fs,
        main json_dump (snd (main json_dump fs))
        = (fst (main json_dump fs), snd (main json_dump fs))).
Proof.
  split.
  - intros rows previous previous'. unfold main. simpl.
    destruct rows as [rows|]; simpl; [|split; [reflexivity | discriminate]].
    destruct (process_rows rows []); simpl; split; try reflexivity.
    discriminate.
  - intros fs. unfold main.
    destruct (csv_rows fs) as [rows|] eqn:Er; simpl; [|now rewrite Er].
    destruct (process_rows rows []) as [ps|e] eqn:Ep; simpl.
    + now rewrite Ep.
    + now rewrite Er, Ep.
Qed.

End Driver.

(** ** Examples of runs *)

(** The run on the four rows writes the two records of the first and the
    last row. *)
Lemma output_records_witness :
  let fs := {| csv_rows := Some four_rows; out_json := None |} in
  exists fs',
    main (U := latin1_db) dump_ids fs = (Ok tt, fs')
    /\ out_json fs'
       = Some (ascii_bytes (lit "swix_vp30") ++ [Byte.x0a]
               ++ ascii_bytes (lit "prod_3") ++ [Byte.x0a])
    /\ exists doc,
         out_json fs' = Some (dump_ids doc)
         /\ length (products doc) = 2%nat
         /\ Forall2 (assembled_from (U := latin1_db))
              [nth 0 four_rows ∅; nth 3 four_rows ∅] (products doc).
Proof.
  intros fs.
  destruct (main (U := latin1_db) dump_ids fs) as [[[]|e] fs'] eqn:E;
    [|vm_compute in E; discriminate].
  exists fs'. split; [reflexivity|].
  split; [vm_compute in E; injection E as <-; vm_compute; reflexivity|].
  destruct (proj1 (proj2 (output_records (U := latin1_db) dump_ids)) fs fs' E)
    as (rows & doc & Er & Eo & _ & _ & L & F).
  injection Er as <-. exists doc. split; [exact Eo|]. split.
  - rewrite L. vm_compute. reflexivity.
  - exact F.
Defined.

(** * Further properties of the code *)

(** ** The fields of a record *)

(** The whole record that a successful turn of the loop appended. *)
Lemma process_row_record `{U : unicode_db} (r : row) (n : nat) (p : product) :
  process_row r n = Ok (Some p) ->
  exists brand line code product_name ty image t1 t2 t3 t4 t5 t6 priority,
    method_strip (get_or_empty r "brand") = Ok brand
    /\ method_strip (get_or_empty r "line") = Ok line
    /\ method_strip (get_or_empty r "code") = Ok code
    /\ method_strip (get_or_empty r "product_name") = Ok product_name
    /\ method_strip (get_or_empty r "type") = Ok ty
    /\ method_strip (get_or_empty r "image_file") = Ok image
    /\ is_empty brand && is_empty code && is_empty product_name = false
    /\ p = {| p_id := or_else (make_id (Some brand) (Some code))
                              (lit "prod_" ++ str_of_nat (n + 1));
              p_brand := brand;
              p_line := line;
              p_code := code;
              p_product := or_else (Some product_name)
                                   (strip (brand ++ lit " " ++ code));
              p_type := or_else (Some (lower ty)) (lit "hardwax");
              p_segment := map_segment (segment_raw r);
              p_temp_ranges := {| tr_new := build_temp_range t1 t2;
                                  tr_old := build_temp_range t3 t4;
                                  tr_wet := build_temp_range t5 t6 |};
              p_priority := priority;
              p_notes :=
                (let notes_raw := or_else (get_or_empty r "notes") [] in
                 if is_empty (strip notes_raw) then [] else [strip notes_raw]);
              p_imageFile := or_none image;
              p_active := parse_bool (get r "active") |}.
Proof.
  unfold process_row, mbind, res_bind. intros H.
  repeat match type of H with
         | match ?x with Ok _ => _ | Raise _ => _ end = _ =>
             let E := fresh "E" in destruct x eqn:E; [|discriminate]
         end.
  destruct (is_empty _ && is_empty _ && is_empty _) eqn:Eb; [discriminate|].
  injection H as <-.
  repeat eexists; repeat split; eauto.
Qed.

Lemma method_strip_trimmed (x : option str) (s : str) :
  method_strip x = Ok s -> is_trimmed s.
Proof.
  destruct x; simpl; [|discriminate]. intros [= <-]. apply strip_is_trimmed.
Qed.

(** X1: the brand, line, code, product name, note and image file of every
    record carry no white space at either end. *)
Theorem record_texts_trimmed `{U : unicode_db} (r : row) (n : nat) (p : product) :
  process_row r n = Ok (Some p) ->
  is_trimmed (p_brand p) /\ is_trimmed (p_line p) /\ is_trimmed (p_code p)
  /\ is_trimmed (p_product p)
  /\ Forall is_trimmed (p_notes p)
  /\ (forall f, p_imageFile p = Some f -> is_trimmed f).
Proof.
  intros H. apply process_row_record in H.
  destruct H as (brand & line & code & pn & ty & image & t1 & t2 & t3 & t4
                 & t5 & t6 & priority & Eb & El & Ec & En & Et & Ei & _ & ->).
  simpl. repeat split; eauto using method_strip_trimmed.
  - destruct pn as [|c pn]; simpl;
      [apply strip_is_trimmed | eauto using method_strip_trimmed].
  - destruct (is_empty _); repeat constructor. apply strip_is_trimmed.
  - intros f Hf. apply method_strip_trimmed in Ei.
    destruct image; simpl in Hf; [discriminate|]. now injection Hf as <-.
Qed.

Lemma record_texts_trimmed_witness :
  exists p, process_row (U := latin1_db) sample_row 0 = Ok (Some p)
            /\ is_trimmed (p_brand p) /\ p_brand p = lit "Swix"
            /\ Forall is_trimmed (p_notes p) /\ p_notes p = [lit "grip wax"]
            /\ p_imageFile p = Some (lit "vp30.png").
Proof.
  destruct (process_row (U := latin1_db) sample_row 0) as [[p|]|e] eqn:E;
    try (vm_compute in E; discriminate).
  exists p. split; [reflexivity|].
  destruct (record_texts_trimmed sample_row 0 p E) as (Hb & _ & _ & _ & Hn & _).
  vm_compute in E. injection E as <-.
  repeat split; assumption || reflexivity.
Defined.

Lemma map_segment_values `{U : unicode_db} (raw : str) :
  In (map_segment raw) SEGMENTS.
Proof.
  unfold map_segment, SEGMENTS.
  destruct (in_tuple _ [lit "race"; lit "r"]); [simpl; auto|].
  destruct (in_tuple _ _); simpl; auto.
Qed.

(** X2: every record has a product name and a type that are not empty, a
    segment that is "race", "training" or "", no note or one note that is
    not empty, and an image file that is [None] or a text that is not
    empty. *)
Theorem record_fields_filled `{U : unicode_db} (r : row) (n : nat) (p : product) :
  process_row r n = Ok (Some p) ->
  p_product p <> [] /\ p_type p <> []
  /\ In (p_segment p) SEGMENTS
  /\ (p_notes p = [] \/ exists t, p_notes p = [t] /\ t <> [])
  /\ p_imageFile p <> Some [].
Proof.
  intros H. apply process_row_record in H.
  destruct H as (brand & line & code & pn & ty & image & t1 & t2 & t3 & t4
                 & t5 & t6 & priority & Eb & El & Ec & En & Et & Ei & Hne & ->).
  simpl. repeat split.
  - destruct pn as [|c pn]; simpl; [|discriminate].
    rewrite andb_true_r in Hne. intros Hs%strip_nil.
    rewrite !forallb_app in Hs.
    apply andb_true_iff in Hs as [Hsb [_ Hsc]%andb_true_iff].
    assert (T : forall x s, method_strip x = Ok s ->
                            forallb isspace s = true -> s = []).
    { intros x s Hx Hs. apply method_strip_trimmed in Hx.
      unfold is_trimmed in Hx. rewrite <- Hx. now apply strip_nil. }
    rewrite (T _ _ Eb Hsb), (T _ _ Ec Hsc) in Hne. discriminate.
  - destruct (lower ty); simpl; discriminate.
  - apply map_segment_values.
  - destruct (strip _) as [|c t]; simpl; [now left|].
    right. exists (c :: t). split; [reflexivity | discriminate].
  - destruct image; simpl; discriminate.
Qed.

Lemma record_fields_filled_witness :
  exists p, process_row (U := latin1_db) sample_row 0 = Ok (Some p)
            /\ p_product p <> [] /\ p_type p = lit "hardwax"
            /\ p_segment p = lit "race".
Proof.
  destruct (process_row (U := latin1_db) sample_row 0) as [[p|]|e] eqn:E;
    try (vm_compute in E; discriminate).
  exists p. split; [reflexivity|].
  destruct (record_fields_filled sample_row 0 p E) as (Hp & _).
  split; [exact Hp|].
  vm_compute in E. injection E as <-. split; reflexivity.
Defined.

(** ** Identifiers *)

Lemma remove_char_not_In (a : codepoint) (s : str) : ~ In a (remove_char a s).
Proof.
  unfold remove_char. intros [_ H]%filter_In. now rewrite N.eqb_refl in H.
Qed.

Lemma string_of_uint_digits (d : Decimal.uint) :
  forallb is_digit (lit (NilEmpty.string_of_uint d)) = true.
Proof.
  unfold lit. induction d; simpl; try exact IHd; reflexivity.
Qed.

Lemma str_of_nat_digits (n : nat) : forallb is_digit (str_of_nat n) = true.
Proof.
  unfold str_of_nat, NilZero.string_of_uint.
  destruct (Nat.to_uint n) eqn:E; try (rewrite <- E); try reflexivity;
    apply string_of_uint_digits.
Qed.

Lemma make_id_shape `{U : unicode_db} (brand code : option str) (x : str) :
  make_id brand code = Some x -> x <> [] /\ ~ In (chr " ") x.
Proof.
  unfold make_id.
  set (b := remove_char (chr " ") (lower (strip (or_else brand [])))).
  set (c := remove_char (chr " ") (lower (strip (or_else code [])))).
  assert (Hb : ~ In (chr " ") b) by apply remove_char_not_In.
  assert (Hc : ~ In (chr " ") c) by apply remove_char_not_In.
  destruct (is_empty b && is_empty c) eqn:E; [discriminate|].
  destruct (is_empty c) eqn:Ec.
  - intros [= <-]. split; [|exact Hb].
    intros ->. discriminate.
  - intros [= <-]. split.
    + intros H. apply (f_equal (@length _)) in H.
      rewrite !length_app in H. vm_compute (length (lit "_")) in H.
      simpl in H. lia.
    + rewrite !in_app_iff. intros [H | [H | H]]; auto.
      vm_compute in H. intuition discriminate.
Qed.

(** X3: an identifier made by [make_id] is never empty and holds no space
    character. *)
Theorem make_id_token `{U : unicode_db} (brand code : option str) (x : str) :
  make_id brand code = Some x -> x <> [] /\ ~ In (chr " ") x.
Proof.
  intros H. split.
  - intros ->. unfold make_id in H.
    destruct (is_empty _ && is_empty _) eqn:E; [discriminate|].
    destruct (is_empty (remove_char _ (lower (strip (or_else code []))))) eqn:Ec.
    + injection H as H. rewrite H in E. discriminate.
    + injection H as H. apply (f_equal (@length _)) in H.
      rewrite !length_app in H. vm_compute (length (lit "_")) in H.
      simpl in H. lia.
  - now apply make_id_shape in H.
Qed.

Lemma make_id_token_witness :
  lit "swix_vp30" <> [] /\ ~ In (chr " ") (lit "swix_vp30").
Proof.
  apply (make_id_token (U := latin1_db) (Some (lit " Swix")) (Some (lit "VP 30"))).
  reflexivity.
Defined.

(** The records that the loop appends, with the length of [products] at the
    time of each. *)
Lemma process_rows_indexed `{U : unicode_db} (rows : list row) :
  forall acc out,
    process_rows rows acc = Ok out ->
    exists new,
      out = acc ++ new
      /\ forall j p, new !! j = Some p ->
           exists r, In r rows
                     /\ process_row r (length acc + j) = Ok (Some p).
Proof.
  induction rows as [|r rows IH]; simpl; intros acc out H.
  - injection H as <-. exists []. split; [now rewrite app_nil_r|].
    intros j p Hj. now rewrite lookup_nil in Hj.
  - unfold mbind, res_bind in H.
    destruct (process_row r (length acc)) as [[p0|]|e] eqn:E; try discriminate.
    + destruct (IH _ _ H) as (new & -> & F).
      exists (p0 :: new). split; [now rewrite <- app_assoc|].
      intros [|j] p Hj; simpl in Hj.
      * injection Hj as <-. exists r. rewrite Nat.add_0_r. auto.
      * destruct (F j p Hj) as (r' & Hr & Hp). exists r'. split; [auto|].
        rewrite length_app in Hp. simpl in Hp.
        now replace (length acc + S j)%nat with (length acc + 1 + j)%nat by lia.
    + destruct (IH _ _ H) as (new & -> & F). exists new. split; [easy|].
      intros j p Hj. destruct (F j p Hj) as (r' & Hr & Hp). eauto.
Qed.

(** X4: the identifier of the record at position [i] of [products], counted
    from 0 over all appended records, the inactive ones too, is the one that
    [make_id] gives for its brand and code, and is "prod_" followed by
    [i + 1] when [make_id] gives none, as it does when brand and code are
    empty; it is never empty and holds no space. *)
Theorem record_ids `{U : unicode_db}
    (rows : list row) (all_products : list product) (i : nat) (p : product) :
  process_rows rows [] = Ok all_products ->
  all_products !! i = Some p ->
  p_id p = match make_id (Some (p_brand p)) (Some (p_code p)) with
           | Some x => x
           | None => lit "prod_" ++ str_of_nat (i + 1)
           end
  /\ (p_brand p = [] -> p_code p = [] ->
      p_id p = lit "prod_" ++ str_of_nat (i + 1))
  /\ p_id p <> [] /\ ~ In (chr " ") (p_id p).
Proof.
  intros H Hi. apply process_rows_indexed in H as (new & -> & F).
  destruct (F i p Hi) as (r & _ & Hp). simpl in Hp.
  apply process_row_record in Hp.
  destruct Hp as (brand & line & code & pn & ty & image & t1 & t2 & t3 & t4
                  & t5 & t6 & priority & _ & _ & _ & _ & _ & _ & _ & ->).
  cbn [p_id p_brand p_code].
  assert (E : or_else (make_id (Some brand) (Some code))
                      (lit "prod_" ++ str_of_nat (i + 1))
              = match make_id (Some brand) (Some code) with
                | Some x => x
                | None => lit "prod_" ++ str_of_nat (i + 1)
                end).
  { destruct (make_id (Some brand) (Some code)) as [x|] eqn:Em; [|reflexivity].
    apply make_id_shape in Em as [Hx _]. now destruct x. }
  rewrite E. split; [reflexivity|]. split.
  - intros -> ->. reflexivity.
  - destruct (make_id (Some brand) (Some code)) as [x|] eqn:Em.
    + now apply make_id_shape in Em.
    + split; [discriminate|].
      rewrite in_app_iff. intros [H | H].
      * vm_compute in H. intuition discriminate.
      * pose proof (str_of_nat_digits (i + 1)) as D.
        rewrite forallb_forall in D. apply D in H. discriminate.
Qed.

Lemma record_ids_witness :
  exists all_products p,
    process_rows (U := latin1_db) sample_rows [] = Ok all_products
    /\ all_products !! 2%nat = Some p
    /\ p_id p = lit "prod_3"
    /\ length (List.filter p_active all_products) = 2%nat.
Proof.
  destruct (process_rows (U := latin1_db) sample_rows []) as [ps|e] eqn:E;
    [|vm_compute in E; discriminate].
  destruct (ps !! 2%nat) as [p|] eqn:Ep;
    [|vm_compute in E; injection E as <-; discriminate].
  exists ps, p. split; [reflexivity|]. split; [exact Ep|].
  destruct (record_ids sample_rows ps 2 p E Ep) as (_ & Hid & _).
  vm_compute in E. injection E as <-.
  vm_compute in Ep. injection Ep as <-.
  split; [apply Hid; reflexivity | reflexivity].
Defined.

(** ** What the loop body reads of a row *)

Lemma or_else_py_or (a b : option str) :
  or_else (py_or a b) []
  = match or_else a [] with
    | [] => or_else b []
    | s => s
    end.
Proof. destruct a as [[|c s]|]; reflexivity. Qed.

(** Two rows that read alike, column by column, give the same turn of the
    loop. *)
Lemma process_row_ext `{U : unicode_db} (r r' : row) (n : nat) :
  (forall k, In k STRIPPED_COLUMNS -> get_or_empty r k = get_or_empty r' k) ->
  (forall k, In k GUARDED_COLUMNS ->
             or_else (get_or_empty r k) [] = or_else (get_or_empty r' k) []) ->
  (forall k, In k NUMBER_COLUMNS ->
             parse_number (get r k) = parse_number (get r' k)) ->
  parse_bool (get r "active") = parse_bool (get r' "active") ->
  process_row r n = process_row r' n.
Proof.
  intros Hs Hg Hn Ha. unfold process_row, segment_raw.
  rewrite !or_else_py_or.
  rewrite (Hs "brand"), (Hs "line"), (Hs "code"), (Hs "product_name"),
    (Hs "type"), (Hs "image_file") by (cbv [In STRIPPED_COLUMNS]; tauto).
  rewrite (Hg "Race/Training"), (Hg "race_training"), (Hg "notes")
    by (cbv [In GUARDED_COLUMNS]; tauto).
  rewrite (Hn "temp_new_min"), (Hn "temp_new_max"), (Hn "temp_old_min"),
    (Hn "temp_old_max"), (Hn "temp_wet_min"), (Hn "temp_wet_max"),
    (Hn "priority") by (cbv [In NUMBER_COLUMNS]; tauto).
  rewrite Ha. reflexivity.
Qed.

Lemma stripped_columns_read (k : string) :
  In k STRIPPED_COLUMNS -> In k READ_COLUMNS.
Proof. cbv [In STRIPPED_COLUMNS READ_COLUMNS]. tauto. Qed.

Lemma guarded_columns_read (k : string) :
  In k GUARDED_COLUMNS -> In k READ_COLUMNS.
Proof. cbv [In GUARDED_COLUMNS READ_COLUMNS]. tauto. Qed.

Lemma number_columns_read (k : string) :
  In k NUMBER_COLUMNS -> In k READ_COLUMNS.
Proof. cbv [In NUMBER_COLUMNS READ_COLUMNS]. tauto. Qed.

Lemma active_column_read : In "active" READ_COLUMNS.
Proof. cbv [In READ_COLUMNS]. tauto. Qed.

Lemma parse_number_empty `{U : unicode_db} :
  parse_number (Some []) = parse_number None.
Proof. reflexivity. Qed.

Lemma parse_bool_empty `{U : unicode_db} :
  parse_bool (Some []) = parse_bool None.
Proof. reflexivity. Qed.

(** Rows that agree on the columns read give the same turn of the loop. *)
Lemma process_row_agree `{U : unicode_db} (r r' : row) (n : nat) :
  (forall k, In k READ_COLUMNS -> r !! k = r' !! k) ->
  process_row r n = process_row r' n.
Proof.
  intros H. apply process_row_ext; unfold get, get_or_empty.
  - intros k Hk%stripped_columns_read. now rewrite (H k Hk).
  - intros k Hk%guarded_columns_read. now rewrite (H k Hk).
  - intros k Hk%number_columns_read. now rewrite (H k Hk).
  - now rewrite (H _ active_column_read).
Qed.

(** X5: a column that the header lacks reads as a column of empty cells:
    the turn of the loop on a row without the column [k] is the one on that
    row with an empty text under [k]. *)
Theorem absent_column_reads_empty `{U : unicode_db}
    (r : row) (k : string) (n : nat) :
  process_row (<[k := Some []]> (delete k r)) n = process_row (delete k r) n.
Proof.
  apply process_row_ext; unfold get, get_or_empty.
  - intros k' _. destruct (decide (k = k')) as [<- | Hne].
    + now rewrite lookup_insert_eq, lookup_delete_eq.
    + now rewrite lookup_insert_ne.
  - intros k' _. destruct (decide (k = k')) as [<- | Hne].
    + now rewrite lookup_insert_eq, lookup_delete_eq.
    + now rewrite lookup_insert_ne.
  - intros k' _. destruct (decide (k = k')) as [<- | Hne].
    + rewrite lookup_insert_eq, lookup_delete_eq. apply parse_number_empty.
    + now rewrite lookup_insert_ne.
  - destruct (decide (k = "active")) as [-> | Hne].
    + rewrite lookup_insert_eq, lookup_delete_eq. apply parse_bool_empty.
    + now rewrite lookup_insert_ne.
Qed.

(** X6: outside the six columns that the loop strips without a guard, a
    cell that is [None] (a line shorter than the header) reads as an empty
    cell. *)
Theorem none_cell_reads_empty `{U : unicode_db}
    (r : row) (k : string) (n : nat) :
  ~ In k STRIPPED_COLUMNS ->
  process_row (<[k := None]> r) n = process_row (<[k := Some []]> r) n.
Proof.
  intros Hk. apply process_row_ext; unfold get, get_or_empty.
  - intros k' Hk'. destruct (decide (k = k')) as [<- | Hne]; [contradiction|].
    now rewrite !lookup_insert_ne.
  - intros k' _. destruct (decide (k = k')) as [<- | Hne].
    + now rewrite !lookup_insert_eq.
    + now rewrite !lookup_insert_ne.
  - intros k' _. destruct (decide (k = k')) as [<- | Hne].
    + rewrite !lookup_insert_eq. symmetry. apply parse_number_empty.
    + now rewrite !lookup_insert_ne.
  - destruct (decide (k = "active")) as [-> | Hne].
    + rewrite !lookup_insert_eq. symmetry. apply parse_bool_empty.
    + now rewrite !lookup_insert_ne.
Qed.

Lemma none_cell_reads_empty_witness :
  process_row (U := latin1_db) (<["notes" := None]> sample_row) 0
  = process_row (U := latin1_db) (<["notes" := Some []]> sample_row) 0.
Proof.
  apply none_cell_reads_empty.
  cbv [In STRIPPED_COLUMNS]. intuition discriminate.
Defined.

(** X7: the loop body reads seventeen columns and no other: setting or
    removing any other column of a row changes nothing. *)
Theorem unread_column_ignored `{U : unicode_db}
    (r : row) (k : string) (v : option str) (n : nat) :
  ~ In k READ_COLUMNS ->
  process_row (<[k := v]> r) n = process_row r n
  /\ process_row (delete k r) n = process_row r n.
Proof.
  intros Hk. split; apply process_row_agree; intros k' Hk'.
  - apply lookup_insert_ne. now intros ->.
  - apply lookup_delete_ne. now intros ->.
Qed.

Lemma unread_column_ignored_witness :
  process_row (U := latin1_db) (<["price" := Some (lit "12")]> sample_row) 0
  = process_row (U := latin1_db) sample_row 0
  /\ process_row (U := latin1_db) (delete "price" sample_row) 0
     = process_row (U := latin1_db) sample_row 0.
Proof.
  apply unread_column_ignored.
  cbv [In READ_COLUMNS]. intuition discriminate.
Defined.

(** ** The loop *)

(** X8: the loop over a table is the loop over its first rows followed by
    the loop over the others, started with the records of the first; an
    exception in the first rows ends both. *)
Theorem process_rows_app `{U : unicode_db} (a b : list row) (acc : list product) :
  process_rows (a ++ b) acc
  = match process_rows a acc with
    | Ok products => process_rows b products
    | Raise e => Raise e
    end.
Proof.
  revert acc. induction a as [|r a IH]; simpl; intros acc; [reflexivity|].
  unfold mbind, res_bind.
  destruct (process_row r (length acc)) as [[p|]|e]; auto.
Qed.

Lemma row_is_sound_raise `{U : unicode_db} (r : row) (n m : nat) (e : exn) :
  process_row r n = Raise e -> ~ row_is_sound r.
Proof.
  intros H Hs. apply (process_row_completes r n) in Hs as [o Ho]. congruence.
Qed.

Lemma process_rows_sound `{U : unicode_db} (rows : list row) :
  forall acc,
    (exists out, process_rows rows acc = Ok out) <-> Forall row_is_sound rows.
Proof.
  induction rows as [|r rows IH]; simpl; intros acc.
  - split; [constructor | eauto].
  - unfold mbind, res_bind. split.
    + intros [out H].
      destruct (process_row r (length acc)) as [o|e] eqn:E; [|discriminate].
      constructor.
      * apply (process_row_completes r (length acc)). eauto.
      * destruct o; eapply IH; eauto.
    + intros [Hr Hrows]%Forall_cons.
      apply (process_row_completes r (length acc)) in Hr as [o ->].
      destruct o; now apply IH.
Qed.

Lemma process_rows_first_raise `{U : unicode_db} (rows : list row) :
  forall acc e,
    process_rows rows acc = Raise e ->
    exists good r rest n,
      rows = good ++ r :: rest
      /\ Forall row_is_sound good
      /\ process_row r n = Raise e.
Proof.
  induction rows as [|r rows IH]; simpl; intros acc e H; [discriminate|].
  unfold mbind, res_bind in H.
  destruct (process_row r (length acc)) as [o|e'] eqn:E.
  - assert (Hr : row_is_sound r)
      by (apply (process_row_completes r (length acc)); eauto).
    assert (exists acc', process_rows rows acc' = Raise e) as [acc' H']
      by (destruct o; eauto).
    destruct (IH _ _ H') as (good & r' & rest & n & -> & Hg & Hn).
    exists (r :: good), r', rest, n. repeat split; auto.
  - injection H as <-. exists [], r, rows, (length acc).
    repeat split; auto.
Qed.

(** X9: the loop runs to its end exactly when no row has [None] under one of
    the six stripped columns or a priority that is an infinity or NaN; and
    when it raises, the exception is the one of the first row that raises,
    all rows before it being sound. *)
Theorem process_rows_completes `{U : unicode_db}
    (rows : list row) (acc : list product) :
  ((exists out, process_rows rows acc = Ok out) <-> Forall row_is_sound rows)
  /\ (forall e, process_rows rows acc = Raise e ->
        exists good r rest n,
          rows = good ++ r :: rest
          /\ Forall row_is_sound good
          /\ ~ row_is_sound r
          /\ process_row r n = Raise e).
Proof.
  split; [apply process_rows_sound|].
  intros e H. apply process_rows_first_raise in H
    as (good & r & rest & n & -> & Hg & Hn).
  exists good, r, rest, n. repeat split; auto.
  eapply row_is_sound_raise; eauto.
Qed.

(** X10: the position of a row only shows in the fallback identifier: the
    turn of the loop with [m] records in [products] is the one with [n]
    records, but for the identifier of a record whose brand and code give
    none. *)
Theorem process_row_position `{U : unicode_db} (r : row) (n m : nat) :
  process_row r m
  = match process_row r n with
    | Ok (Some p) =>
        Ok (Some (with_id p
                    (or_else (make_id (Some (p_brand p)) (Some (p_code p)))
                             (lit "prod_" ++ str_of_nat (m + 1)))))
    | other => other
    end.
Proof.
  unfold process_row, mbind, res_bind.
  repeat match goal with
         | |- context [match ?x with Ok _ => _ | Raise _ => _ end] =>
             match x with
             | context [is_empty] => fail 1
             | _ => destruct x; [|reflexivity]
             end
         end.
  destruct (is_empty _ && is_empty _ && is_empty _); reflexivity.
Qed.

(** X11: blank rows leave no trace: when the loop runs to its end, dropping
    the blank rows from the table gives the same records, identifiers
    included. *)
Theorem blank_rows_leave_no_trace `{U : unicode_db}
    (rows : list row) (acc out : list product) :
  process_rows rows acc = Ok out ->
  process_rows (List.filter (fun r => negb (row_is_blank r)) rows) acc = Ok out.
Proof.
  revert acc out.
  induction rows as [|r rows IH]; simpl; intros acc out H; [exact H|].
  unfold mbind, res_bind in H.
  destruct (process_row r (length acc)) as [o|e] eqn:E; [|discriminate].
  pose proof (process_row_blank r _ o E) as Hb. rewrite Hb.
  destruct o as [p|]; simpl.
  - unfold mbind, res_bind. rewrite E. auto.
  - auto.
Qed.

Lemma blank_rows_leave_no_trace_witness :
  exists out,
    process_rows (U := latin1_db) sample_rows [] = Ok out
    /\ process_rows (U := latin1_db)
         (List.filter (fun r => negb (row_is_blank r)) sample_rows) [] = Ok out
    /\ length (List.filter (fun r => negb (row_is_blank r)) sample_rows) = 3%nat.
Proof.
  destruct (process_rows (U := latin1_db) sample_rows []) as [ps|e] eqn:E;
    [|vm_compute in E; discriminate].
  exists ps. split; [reflexivity|].
  split; [exact (blank_rows_leave_no_trace sample_rows [] ps E) | reflexivity].
Defined.

(** ** Characters that the parsers do not tell apart *)

Lemma lstrip_by_map (sp : codepoint -> bool) (f : codepoint -> codepoint)
    (s : str) :
  (forall c, sp (f c) = sp c) ->
  lstrip_by sp (map f s) = map f (lstrip_by sp s).
Proof.
  intros H. induction s as [|c s IH]; simpl; [reflexivity|].
  rewrite H. destruct (sp c); [exact IH | reflexivity].
Qed.

Lemma strip_map (f : codepoint -> codepoint) (s : str) :
  (forall c, isspace (f c) = isspace c) ->
  strip (map f s) = map f (strip s).
Proof.
  intros H. unfold strip, rstrip_by.
  now rewrite lstrip_by_map, <- map_rev, lstrip_by_map, map_rev.
Qed.

Lemma normalize_number_cons (c : codepoint) (t : str) :
  normalize_number (c :: t)
  = match norm_char c with
    | Some d => d :: normalize_number t
    | None => normalize_number t
    end.
Proof.
  unfold normalize_number, norm_char, replace_char, remove_char. simpl.
  destruct (c =? MINUS_SIGN);
    repeat match goal with
           | |- context [?x =? ?y] => destruct (x =? y); simpl
           end; reflexivity.
Qed.

Lemma normalize_number_map (f : codepoint -> codepoint) (t : str) :
  (forall c, norm_char (f c) = norm_char c) ->
  normalize_number (map f t) = normalize_number t.
Proof.
  intros H. induction t as [|c t IH]; [reflexivity|].
  simpl map. now rewrite !normalize_number_cons, H, IH.
Qed.

Lemma is_empty_map (f : codepoint -> codepoint) (s : str) :
  is_empty (map f s) = is_empty s.
Proof. now destruct s. Qed.

(** A change of characters that keeps white space and the normal form of
    each character does not change what [parse_number] returns. *)
Lemma parse_number_map `{U : unicode_db} (f : codepoint -> codepoint) (s : str) :
  (forall c, isspace (f c) = isspace c) ->
  (forall c, norm_char (f c) = norm_char c) ->
  parse_number (Some (map f s)) = parse_number (Some s).
Proof.
  intros Hs Hn. unfold parse_number.
  now rewrite (strip_map f s Hs), is_empty_map, normalize_number_map.
Qed.

Lemma replace_char_alike (a b : codepoint) :
  isspace a = isspace b -> norm_char a = norm_char b ->
  (forall c, isspace ((fun c => if c =? a then b else c) c) = isspace c)
  /\ (forall c, norm_char ((fun c => if c =? a then b else c) c) = norm_char c).
Proof.
  intros Hs Hn. split; intros c; simpl;
    destruct (N.eqb_spec c a) as [-> | _]; auto.
Qed.

Lemma parse_number_replace `{U : unicode_db} (a b : codepoint) (s : str) :
  isspace a = isspace b -> norm_char a = norm_char b ->
  parse_number (Some (replace_char a b s)) = parse_number (Some s).
Proof.
  intros Hs Hn. destruct (replace_char_alike a b Hs Hn).
  now apply parse_number_map.
Qed.

(** X12: [parse_number] reads the unicode minus and the hyphen alike, and
    the comma and the period alike: exchanging one for the other anywhere in
    a text does not change the result. *)
Theorem parse_number_alike `{U : unicode_db} (s : str) :
  parse_number (Some (replace_char MINUS_SIGN (chr "-") s))
  = parse_number (Some s)
  /\ parse_number (Some (replace_char (chr "-") MINUS_SIGN s))
     = parse_number (Some s)
  /\ parse_number (Some (replace_char (chr ",") (chr ".") s))
     = parse_number (Some s)
  /\ parse_number (Some (replace_char (chr ".") (chr ",") s))
     = parse_number (Some s).
Proof. repeat split; now apply parse_number_replace. Qed.

(** X13: white space around a cell does not matter to the field parsers:
    [parse_number], [parse_bool] and [make_id] give the same on a text and
    on that text between two runs of white space. *)
Theorem parsers_ignore_padding `{U : unicode_db} (a s b : str) :
  forallb isspace a = true -> forallb isspace b = true ->
  parse_number (Some (a ++ s ++ b)) = parse_number (Some s)
  /\ parse_bool (Some (a ++ s ++ b)) = parse_bool (Some s)
  /\ (forall code, make_id (Some (a ++ s ++ b)) code = make_id (Some s) code)
  /\ (forall brand, make_id brand (Some (a ++ s ++ b)) = make_id brand (Some s)).
Proof.
  intros Ha Hb. unfold parse_number, parse_bool, make_id.
  rewrite !or_else_Some_nil, !(strip_padded a s b Ha Hb). auto.
Qed.

Lemma parsers_ignore_padding_witness :
  parse_number (U := latin1_db) (Some ([TAB; 0xA0] ++ lit "-5" ++ lit "  "))
  = Ok (Some (PyInt (-5)))
  /\ parse_bool (U := latin1_db) (Some ([TAB; 0xA0] ++ lit "Nej" ++ lit "  "))
     = false.
Proof.
  destruct (parsers_ignore_padding (U := latin1_db)
              [TAB; 0xA0] (lit "-5") (lit "  ") eq_refl eq_refl) as [-> _].
  destruct (parsers_ignore_padding (U := latin1_db)
              [TAB; 0xA0] (lit "Nej") (lit "  ") eq_refl eq_refl) as (_ & -> & _).
  split; reflexivity.
Defined.

(** ** Letter case *)

Lemma ascii_lower_isspace (c : codepoint) :
  isspace (ascii_lower c) = isspace c.
Proof.
  unfold ascii_lower. destruct (is_upper_ascii c) eqn:E; [|reflexivity].
  assert (Hc : (c <? 128) = true).
  { unfold is_upper_ascii in E. apply andb_true_iff in E as [_ E].
    apply N.leb_le in E. apply N.ltb_lt. lia. }
  pose (P := fun c => implb (is_upper_ascii c)
                            (negb (isspace c) && negb (isspace (c + 32)))).
  assert (H : P c = true)
    by (apply ascii_forall; [vm_compute; reflexivity | exact Hc]).
  unfold P in H. rewrite E in H. simpl in H.
  apply andb_true_iff in H as [H1 H2].
  apply negb_true_iff in H1, H2. congruence.
Qed.

Lemma lower_from_ascii `{U : unicode_db} (whole s : str) (i : nat) :
  is_ascii s = true -> lower_from whole i s = map ascii_lower s.
Proof.
  revert i. induction s as [|c s IH]; simpl; intros i; [reflexivity|].
  intros [-> H]%andb_true_iff. simpl. now rewrite IH.
Qed.

Lemma is_ascii_lstrip (sp : codepoint -> bool) (s : str) :
  is_ascii s = true -> is_ascii (lstrip_by sp s) = true.
Proof.
  induction s as [|c s IH]; simpl; [easy|].
  intros H. destruct (sp c); [|exact H].
  apply andb_true_iff in H as [_ H]. auto.
Qed.

Lemma is_ascii_strip (s : str) : is_ascii s = true -> is_ascii (strip s) = true.
Proof.
  intros H. unfold strip, rstrip_by, is_ascii.
  rewrite forallb_rev. apply is_ascii_lstrip.
  unfold is_ascii. rewrite forallb_rev. now apply is_ascii_lstrip.
Qed.

(** On ASCII text the trimmed, lower-cased text is a function of the
    lower-cased text. *)
Lemma lower_strip_ascii `{U : unicode_db} (s : str) :
  is_ascii s = true -> lower (strip s) = strip (map ascii_lower s).
Proof.
  intros H. unfold lower.
  rewrite lower_from_ascii by now apply is_ascii_strip.
  symmetry. apply strip_map, ascii_lower_isspace.
Qed.

(** X14: on ASCII text, [parse_bool], [make_id] and the segment mapping do
    not tell capitals from small letters: two texts with the same
    lower-casing are read alike. *)
Theorem ascii_case_ignored `{U : unicode_db} (s t : str) :
  is_ascii s = true -> is_ascii t = true ->
  map ascii_lower s = map ascii_lower t ->
  parse_bool (Some s) = parse_bool (Some t)
  /\ map_segment s = map_segment t
  /\ (forall code, make_id (Some s) code = make_id (Some t) code)
  /\ (forall brand, make_id brand (Some s) = make_id brand (Some t)).
Proof.
  intros Hs Ht E.
  assert (L : lower (strip s) = lower (strip t))
    by now rewrite !lower_strip_ascii, E.
  unfold parse_bool, map_segment, make_id.
  rewrite !or_else_Some_nil, L. auto.
Qed.

Lemma ascii_case_ignored_witness :
  make_id (U := latin1_db) (Some (lit "SWIX")) (Some (lit "vp30"))
  = make_id (U := latin1_db) (Some (lit "Swix")) (Some (lit "vp30"))
  /\ map_segment (U := latin1_db) (lit "TOURING") = lit "training".
Proof.
  destruct (ascii_case_ignored (U := latin1_db) (lit "SWIX") (lit "Swix")
              eq_refl eq_refl eq_refl) as (_ & _ & -> & _).
  destruct (ascii_case_ignored (U := latin1_db) (lit "TOURING") (lit "touring")
              eq_refl eq_refl eq_refl) as (_ & -> & _).
  split; reflexivity.
Defined.

(** ** Decimal separators *)

Lemma count_char_app (a : codepoint) (s t : str) :
  count_char a (s ++ t) = (count_char a s + count_char a t)%nat.
Proof. unfold count_char. now rewrite List.filter_app, length_app. Qed.

Lemma count_char_cons (a c : codepoint) (s : str) :
  count_char a (c :: s)
  = ((if (a =? c)%N then 1 else 0) + count_char a s)%nat.
Proof. unfold count_char. simpl. now destruct (a =? c). Qed.

Lemma count_char_rev (a : codepoint) (s : str) :
  count_char a (rev s) = count_char a s.
Proof.
  induction s as [|c s IH]; simpl; [reflexivity|].
  rewrite count_char_app, IH, !count_char_cons. unfold count_char. simpl. lia.
Qed.

Lemma count_char_lstrip (sp : codepoint -> bool) (a : codepoint) (s : str) :
  sp a = false -> count_char a (lstrip_by sp s) = count_char a s.
Proof.
  intros Ha. induction s as [|c s IH]; simpl; [reflexivity|].
  destruct (sp c) eqn:E; [|reflexivity].
  rewrite count_char_cons, IH.
  destruct (N.eqb_spec a c) as [-> | _]; [congruence | reflexivity].
Qed.

Lemma count_char_rstrip (sp : codepoint -> bool) (a : codepoint) (s : str) :
  sp a = false -> count_char a (rstrip_by sp s) = count_char a s.
Proof.
  intros Ha. unfold rstrip_by.
  now rewrite count_char_rev, count_char_lstrip, count_char_rev.
Qed.

Lemma count_char_none (a : codepoint) (s : str) :
  (forall c, In c s -> c <> a) -> count_char a s = 0%nat.
Proof.
  intros H. induction s as [|c s IH]; [reflexivity|].
  rewrite count_char_cons, IH by (intros d Hd; apply H; now right).
  destruct (N.eqb_spec a c) as [-> | _]; [|reflexivity].
  exfalso. apply (H c); [now left | reflexivity].
Qed.

Lemma norm_char_period (c : codepoint) :
  match norm_char c with
  | Some d => chr "." =? d
  | None => false
  end = (chr "." =? c) || (chr "," =? c).
Proof.
  unfold norm_char. cbv zeta.
  destruct (N.eqb_spec c MINUS_SIGN) as [-> | _]; [reflexivity|].
  cbn [existsb].
  destruct (N.eqb_spec c DEGREE_SIGN) as [-> | _]; [reflexivity|].
  destruct (N.eqb_spec c (chr "C")) as [-> | _]; [reflexivity|].
  destruct (N.eqb_spec c (chr "c")) as [-> | _]; [reflexivity|].
  cbn [orb]. destruct (N.eqb_spec c (chr ",")) as [-> | Hc]; [reflexivity|].
  destruct (N.eqb_spec (chr ",") c) as [E | _]; [congruence|].
  now rewrite orb_false_r.
Qed.

(** The periods of the text given to [float()] are the periods and the
    commas of the input. *)
Lemma count_period_normalize (t : str) :
  count_char (chr ".") (normalize_number t)
  = (count_char (chr ".") t + count_char (chr ",") t)%nat.
Proof.
  induction t as [|c t IH]; [reflexivity|].
  rewrite normalize_number_cons, !count_char_cons.
  pose proof (norm_char_period c) as H.
  assert (X : (chr "." =? c) && (chr "," =? c) = false).
  { destruct (N.eqb_spec (chr ".") c) as [<- | _]; reflexivity. }
  destruct (norm_char c) as [d|]; [rewrite count_char_cons|]; rewrite IH;
    revert H X;
    destruct (chr "." =? c), (chr "," =? c);
    cbn [orb andb]; intros H X; try rewrite H; try discriminate; lia.
Qed.

Lemma count_period_ascii `{U : unicode_db} (s a : str) :
  mapM ascii_of_codepoint s = Some a ->
  count_char (chr ".") a = count_char (chr ".") s.
Proof.
  intros H. apply mapM_Some_1 in H.
  induction H as [|x y s a Hxy _ IH]; [reflexivity|].
  rewrite !count_char_cons, IH. f_equal.
  unfold ascii_of_codepoint in Hxy.
  destruct (N.ltb_spec x 128) as [Hx | Hx]; [now injection Hxy as <-|].
  assert (Ex : (chr "." =? x) = false)
    by (apply N.eqb_neq; intros <-; vm_compute in Hx; now apply Hx).
  rewrite Ex.
  destruct (isspace x).
  - now injection Hxy as <-.
  - destruct (todecimal x) as [d|]; [|discriminate].
    injection Hxy as <-.
    assert (E : (chr "." =? 48 + d) = false); [|now rewrite E].
    apply N.eqb_neq. change (chr ".") with 46. lia.
Qed.

Lemma count_char_drop_underscores (a : codepoint) (s b : str)
    (prev : codepoint) :
  a <> chr "_" ->
  drop_underscores prev s = Some b -> count_char a b = count_char a s.
Proof.
  intros Ha. revert prev b.
  induction s as [|d s IH]; simpl; intros prev b.
  - destruct (prev =? chr "_"); [discriminate | now intros [= <-]].
  - destruct (N.eqb_spec d (chr "_")) as [-> | Hd].
    + destruct (is_digit prev); [|discriminate]. intros H.
      rewrite count_char_cons, (IH _ _ H).
      destruct (N.eqb_spec a (chr "_")); [contradiction | reflexivity].
    + destruct (_ && _); [discriminate|].
      destruct (drop_underscores d s) as [b'|] eqn:E; [|discriminate].
      intros [= <-]. now rewrite !count_char_cons, (IH _ _ E).
Qed.

Lemma count_period_float_text `{U : unicode_db} (s t : str) :
  float_text s = Some t ->
  count_char (chr ".") t = count_char (chr ".") s.
Proof.
  unfold float_text. intros H.
  destruct (mapM ascii_of_codepoint s) as [a|] eqn:Ea; [|discriminate].
  simpl in H. destruct (drop_underscores 0 a) as [b|] eqn:Eb; [|discriminate].
  simpl in H. injection H as <-.
  rewrite count_char_rstrip, count_char_lstrip by reflexivity.
  assert (Hne : chr "." <> chr "_") by discriminate.
  rewrite (count_char_drop_underscores _ _ _ _ Hne Eb).
  now apply count_period_ascii.
Qed.

Lemma count_period_digits (s : str) :
  forallb is_digit s = true -> count_char (chr ".") s = 0%nat.
Proof.
  intros H. apply count_char_none. intros c Hc ->.
  rewrite forallb_forall in H. apply H in Hc. discriminate.
Qed.

Lemma count_period_sign (s r : str) (neg : bool) :
  read_sign s = (neg, r) -> count_char (chr ".") s = count_char (chr ".") r.
Proof.
  intros H. apply read_sign_spec in H as [-> | (c & -> & [-> | ->])];
    reflexivity.
Qed.

Lemma count_period_exponent (s : str) (e : Z) :
  parse_exponent s = Some e -> count_char (chr ".") s = 0%nat.
Proof.
  destruct s as [|c s]; simpl; [easy|].
  destruct ((c =? chr "e") || (c =? chr "E")) eqn:Ee; [|discriminate].
  destruct (read_sign s) as [eneg r1] eqn:Es.
  destruct (span is_digit r1) as [ed r2] eqn:Ed.
  destruct ed as [|d ed]; [discriminate|].
  destruct r2; [|discriminate]. intros _.
  apply span_spec in Ed as [-> Hd]. rewrite app_nil_r in Es.
  rewrite count_char_cons, (count_period_sign _ _ _ Es),
    (count_period_digits _ Hd).
  apply orb_true_iff in Ee as [->%N.eqb_eq | ->%N.eqb_eq]; reflexivity.
Qed.

(** A decimal literal has one period at most. *)
Lemma count_period_decimal (t : str) (d : decimal) :
  parse_decimal t = Some d -> (count_char (chr ".") t <= 1)%nat.
Proof.
  unfold parse_decimal.
  destruct (read_sign t) as [neg s1] eqn:Es.
  rewrite (count_period_sign _ _ _ Es).
  destruct (span is_digit s1) as [ip s2] eqn:Ei.
  apply span_spec in Ei as [-> Hip].
  rewrite count_char_app, (count_period_digits ip Hip). simpl.
  destruct s2 as [|c r]; [intros _; unfold count_char; simpl; lia|].
  destruct (N.eqb_spec c (chr ".")) as [-> | Hc].
  - destruct (span is_digit r) as [fp s3] eqn:Ef.
    apply span_spec in Ef as [-> Hfp].
    destruct (ip ++ fp); [discriminate|].
    destruct (parse_exponent s3) eqn:Ee; [|discriminate]. intros _.
    rewrite count_char_cons, count_char_app, (count_period_digits fp Hfp),
      (count_period_exponent _ _ Ee). simpl. lia.
  - destruct (ip ++ []); [discriminate|].
    destruct (parse_exponent (c :: r)) eqn:Ee; [|discriminate]. intros _.
    rewrite (count_period_exponent _ _ Ee). lia.
Qed.

Lemma ascii_lower_period (c : codepoint) :
  ascii_lower c = chr "." -> c = chr ".".
Proof.
  unfold ascii_lower, is_upper_ascii.
  destruct (N.leb_spec 65 c); simpl; [|easy].
  destruct (N.leb_spec c 90); [|easy].
  change (chr ".") with 46. lia.
Qed.

Lemma count_period_inf_nan (t : str) (x : spec_float) :
  parse_inf_nan t = Some x -> count_char (chr ".") t = 0%nat.
Proof.
  unfold parse_inf_nan. destruct (read_sign t) as [neg r] eqn:Es.
  rewrite (count_period_sign _ _ _ Es). intros H.
  assert (W : In (map ascii_lower r) [lit "inf"; lit "infinity"; lit "nan"]).
  { destruct (str_eqb _ (lit "inf")) eqn:E1;
      [apply str_eqb_eq in E1; simpl; auto|].
    destruct (str_eqb _ (lit "infinity")) eqn:E2;
      [apply str_eqb_eq in E2; simpl; auto|].
    destruct (str_eqb _ (lit "nan")) eqn:E3;
      [apply str_eqb_eq in E3; simpl; auto|].
    simpl in H. discriminate. }
  apply count_char_none. intros c Hc ->.
  assert (Hl : In (chr ".") (map ascii_lower r))
    by (apply in_map_iff; exists (chr "."); split; [reflexivity | exact Hc]).
  destruct W as [W | [W | [W | []]]]; rewrite <- W in Hl;
    vm_compute in Hl; intuition discriminate.
Qed.

(** X15: a text with two or more decimal separators, periods or commas, is
    never a number: [parse_number] returns [None].  So no grouping of
    thousands is read. *)
Theorem parse_number_two_separators `{U : unicode_db} (s : str) :
  (2 <= count_char (chr ".") s + count_char (chr ",") s)%nat ->
  parse_number (Some s) = Ok None.
Proof.
  intros H. unfold parse_number.
  destruct (is_empty (strip s)); [reflexivity|].
  assert (C : count_char (chr ".") (normalize_number (strip s))
              = (count_char (chr ".") s + count_char (chr ",") s)%nat).
  { rewrite count_period_normalize. unfold strip.
    now rewrite !count_char_rstrip, !count_char_lstrip by reflexivity. }
  unfold py_float.
  destruct (float_text _) as [t|] eqn:Et; [|reflexivity].
  apply count_period_float_text in Et.
  destruct (parse_decimal t) as [d|] eqn:Ed.
  { apply count_period_decimal in Ed. lia. }
  destruct (parse_inf_nan t) as [x|] eqn:Ex; [|reflexivity].
  apply count_period_inf_nan in Ex. lia.
Qed.

Lemma parse_number_two_separators_witness :
  parse_number (U := latin1_db) (Some (lit "1,234.5")) = Ok None.
Proof.
  apply parse_number_two_separators. vm_compute. lia.
Defined.

(** ** Integers in text *)

Section Binary64.
#[local] Open Scope Z_scope.

(** The number of binary digits of a positive number. *)
Lemma digits2_pos_bounds (p : positive) :
  2 ^ (Z.pos (digits2_pos p) - 1) <= Z.pos p < 2 ^ Z.pos (digits2_pos p).
Proof.
  induction p as [p IH | p IH |]; simpl digits2_pos.
  - rewrite Pos2Z.inj_succ.
    replace (Z.succ (Z.pos (digits2_pos p)) - 1) with (Z.succ (Z.pos (digits2_pos p) - 1)) by lia.
    rewrite !Z.pow_succ_r by lia. lia.
  - rewrite Pos2Z.inj_succ.
    replace (Z.succ (Z.pos (digits2_pos p)) - 1) with (Z.succ (Z.pos (digits2_pos p) - 1)) by lia.
    rewrite !Z.pow_succ_r by lia. lia.
  - simpl. lia.
Qed.

Lemma Zdigits2_unique (n k : Z) :
  2 ^ (k - 1) <= n < 2 ^ k -> 1 <= k -> Zdigits2 n = k.
Proof.
  intros H Hk.
  assert (0 < n) by (pose proof (Z.pow_pos_nonneg 2 (k - 1)); lia).
  destruct n as [|p|p]; try lia. simpl.
  pose proof (digits2_pos_bounds p) as B.
  set (d := Z.pos (digits2_pos p)) in *.
  destruct (Z.lt_trichotomy d k) as [L | [E | G]]; [|exact E|].
  - assert (2 ^ d <= 2 ^ (k - 1)) by (apply Z.pow_le_mono_r; lia). lia.
  - assert (2 ^ k <= 2 ^ (d - 1)) by (apply Z.pow_le_mono_r; lia). lia.
Qed.

Lemma div_eucl_one (a : Z) : Z.div_eucl a 1 = (a, 0).
Proof.
  pose proof (Z.div_1_r a) as D. pose proof (Z.mod_1_r a) as M.
  unfold Z.div, Z.modulo in *. destruct (Z.div_eucl a 1). simpl in *. congruence.
Qed.

(** An integer of at most 53 binary digits is a binary64 value: the
    rounding of [float_of_decimal] is exact on it. *)
Lemma float_of_positive (neg : bool) (n : positive) :
  Z.pos (digits2_pos n) <= 53 ->
  float_of_decimal {| dec_neg := neg; dec_digits := Z.pos n; dec_exp10 := 0 |}
  = S754_finite neg (Z.to_pos (Z.pos n * 2 ^ (53 - Z.pos (digits2_pos n))))
      (Z.pos (digits2_pos n) - 53).
Proof.
  intros Hd. unfold float_of_decimal. cbn [dec_neg dec_digits dec_exp10].
  change (Z.max 0 0) with 0. change (Z.max (- 0) 0) with 0.
  change (10 ^ 0) with 1. rewrite Z.mul_1_r.
  pose proof (digits2_pos_bounds n) as B.
  set (d := Z.pos (digits2_pos n)) in *.
  assert (Hd1 : 1 <= d) by (unfold d; lia).
  unfold SFdiv_core_binary.
  change (Zdigits2 (Z.pos n)) with d. change (Zdigits2 1) with 1.
  assert (He : Z.min (fexp prec emax (d + 0 - (1 + 0))) (0 - 0) = d - 54).
  { unfold fexp, emin, prec, emax. lia. }
  rewrite He.
  replace (0 - 0 - (d - 54)) with (54 - d) by lia.
  destruct (54 - d) as [|s|s] eqn:Es; try lia.
  rewrite div_eucl_one.
  change (new_location 1 0) with loc_Exact.
  remember (Z.to_pos (Z.pos n * 2 ^ (53 - d))) as m eqn:Em.
  assert (Hm : Z.pos m = Z.pos n * 2 ^ (53 - d)).
  { rewrite Em. rewrite Z2Pos.id; [reflexivity|].
    apply Z.mul_pos_pos; [lia | apply Z.pow_pos_nonneg; lia]. }
  assert (Hq : Z.pos n ≪ Z.pos s = Z.pos m~0).
  { rewrite Z.shiftl_mul_pow2 by lia.
    change (Z.pos m~0) with (2 * Z.pos m). rewrite Hm, <- Es.
    replace (54 - d) with (Z.succ (53 - d)) by lia.
    rewrite Z.pow_succ_r by lia. lia. }
  assert (Bm : 2 ^ 52 <= Z.pos m < 2 ^ 53).
  { assert (P52 : 2 ^ 52 = 2 ^ (d - 1) * 2 ^ (53 - d))
      by (rewrite <- Z.pow_add_r by lia; f_equal; lia).
    assert (P53 : 2 ^ 53 = 2 ^ d * 2 ^ (53 - d))
      by (rewrite <- Z.pow_add_r by lia; f_equal; lia).
    assert (0 < 2 ^ (53 - d)) by (apply Z.pow_pos_nonneg; lia).
    rewrite Hm, P52, P53.
    split; [apply Z.mul_le_mono_nonneg_r | apply Z.mul_lt_mono_pos_r]; lia. }
  assert (Dm : Zdigits2 (Z.pos m) = 53)
    by (apply Zdigits2_unique; [exact Bm | lia]).
  assert (Dq : Zdigits2 (Z.pos m~0) = 54).
  { apply Zdigits2_unique; [|lia]. change (Z.pos m~0) with (2 * Z.pos m).
    change (2 ^ (54 - 1)) with (2 * 2 ^ 52). change (2 ^ 54) with (2 * 2 ^ 53).
    lia. }
  rewrite Hq. unfold binary_round_aux.
  assert (S1 : shr_fexp prec emax (Z.pos m~0) (d - 54) loc_Exact
               = ({| shr_m := Z.pos m; shr_r := false; shr_s := false |}, d - 53)).
  { unfold shr_fexp. rewrite Dq.
    replace (fexp prec emax (54 + (d - 54)) - (d - 54)) with 1
      by (unfold fexp, emin, prec, emax; lia).
    cbn [shr shr_record_of_loc iter_pos shr_1 orb]. f_equal. lia. }
  rewrite S1. cbn [shr_m loc_of_shr_record round_nearest_even].
  assert (S2 : shr_fexp prec emax (Z.pos m) (d - 53) loc_Exact
               = ({| shr_m := Z.pos m; shr_r := false; shr_s := false |}, d - 53)).
  { unfold shr_fexp. rewrite Dm.
    replace (fexp prec emax (53 + (d - 53)) - (d - 53)) with 0
      by (unfold fexp, emin, prec, emax; lia).
    reflexivity. }
  rewrite S2. cbn [shr_m].
  replace (d - 53 <=? emax - prec) with true
    by (symmetry; apply Z.leb_le; unfold emax, prec; lia).
  reflexivity.
Qed.

Lemma float_of_positive_int (neg : bool) (n : positive) :
  Z.pos n < 2 ^ 53 ->
  exists x,
    float_of_decimal {| dec_neg := neg; dec_digits := Z.pos n; dec_exp10 := 0 |} = x
    /\ float_is_integer x = true
    /\ int_of_float x = Ok (cond_Zopp neg (Z.pos n)).
Proof.
  intros Hn.
  pose proof (digits2_pos_bounds n) as B.
  assert (Hd : Z.pos (digits2_pos n) <= 53).
  { destruct (Z.le_gt_cases (Z.pos (digits2_pos n)) 53) as [L | G]; [exact L|].
    assert (2 ^ 53 <= 2 ^ (Z.pos (digits2_pos n) - 1))
      by (apply Z.pow_le_mono_r; lia).
    lia. }
  eexists. split; [apply (float_of_positive neg n Hd)|].
  set (d := Z.pos (digits2_pos n)) in *.
  assert (Hp : 0 < 2 ^ (53 - d)) by (apply Z.pow_pos_nonneg; lia).
  assert (Hm : Z.pos (Z.to_pos (Z.pos n * 2 ^ (53 - d))) = Z.pos n * 2 ^ (53 - d))
    by (rewrite Z2Pos.id; [reflexivity | apply Z.mul_pos_pos; lia]).
  cbn [float_is_integer int_of_float]. rewrite Hm.
  replace (- (d - 53)) with (53 - d) by lia.
  rewrite Z.mod_mul, Z.eqb_refl, orb_true_r by lia. split; [reflexivity|].
  f_equal. f_equal.
  destruct (Z.leb_spec 0 (d - 53)) as [L | L].
  - replace (53 - d) with 0 by lia. replace (d - 53) with 0 by lia.
    change (2 ^ 0) with 1. lia.
  - apply Z.div_mul. lia.
Qed.

End Binary64.

Lemma digits_value_acc (d : Decimal.uint) (acc : Z) :
  (0 <= acc)%Z ->
  fold_left (fun a c => 10 * a + (Z.of_N c - 48))%Z
            (lit (NilEmpty.string_of_uint d)) acc
  = Z.of_nat (Nat.of_uint_acc d (Z.to_nat acc)).
Proof.
  revert acc. unfold lit.
  induction d as [|d IH|d IH|d IH|d IH|d IH|d IH|d IH|d IH|d IH|d IH];
    intros acc Hacc; simpl;
    [lia | rewrite IH by lia; rewrite Nat.tail_mul_spec; do 2 f_equal; lia ..].
Qed.

(** Reading the decimal writing of a natural number gives it back. *)
Lemma digits_value_str_of_nat (n : nat) :
  digits_value (str_of_nat n) = Z.of_nat n.
Proof.
  unfold digits_value, str_of_nat, NilZero.string_of_uint.
  rewrite <- (DecimalNat.Unsigned.of_to n) at 2. unfold Nat.of_uint.
  destruct (Nat.to_uint n) eqn:E; try (rewrite <- E; now rewrite digits_value_acc);
    reflexivity.
Qed.

Lemma plain_char_facts (c : codepoint) :
  plain_char c = true ->
  (c <? 128) = true /\ isspace c = false /\ c_isspace c = false
  /\ norm_char c = Some c /\ c <> chr "_".
Proof.
  intros H.
  assert (Hc : (c <? 128) = true).
  { apply N.ltb_lt. unfold plain_char, is_digit in H.
    apply orb_true_iff in H as [[_ H]%andb_true_iff | H].
    - apply N.leb_le in H. lia.
    - apply N.eqb_eq in H. subst. reflexivity. }
  pose (P := fun c =>
    implb (plain_char c)
          (negb (isspace c) && negb (c_isspace c)
           && match norm_char c with Some d => d =? c | None => false end
           && negb (c =? chr "_"))).
  assert (HP : P c = true)
    by (apply ascii_forall; [vm_compute; reflexivity | exact Hc]).
  unfold P in HP. rewrite H in HP. cbn [implb] in HP.
  repeat (apply andb_true_iff in HP as [HP ?]).
  repeat match goal with
         | K : negb _ = true |- _ => apply negb_true_iff in K
         end.
  repeat split; trivial.
  - destruct (norm_char c) as [d|]; [|discriminate].
    f_equal. now apply N.eqb_eq.
  - now apply N.eqb_neq.
Qed.

Lemma lstrip_by_none (sp : codepoint -> bool) (s : str) :
  (forall c, In c s -> sp c = false) -> lstrip_by sp s = s.
Proof.
  destruct s as [|c s]; [reflexivity|]. intros H. simpl.
  now rewrite (H c (or_introl eq_refl)).
Qed.

Lemma rstrip_by_none (sp : codepoint -> bool) (s : str) :
  (forall c, In c s -> sp c = false) -> rstrip_by sp s = s.
Proof.
  intros H. unfold rstrip_by. rewrite lstrip_by_none, rev_involutive; [easy|].
  intros c Hc. apply H. now apply in_rev.
Qed.

Lemma normalize_number_fixed (s : str) :
  (forall c, In c s -> norm_char c = Some c) -> normalize_number s = s.
Proof.
  induction s as [|c s IH]; [reflexivity|]. intros H.
  rewrite normalize_number_cons, (H c (or_introl eq_refl)), IH; [reflexivity|].
  intros d Hd. apply H. now right.
Qed.

Lemma normalize_number_app (s t : str) :
  normalize_number (s ++ t) = normalize_number s ++ normalize_number t.
Proof.
  induction s as [|c s IH]; [reflexivity|]. simpl app.
  rewrite !normalize_number_cons, IH. now destruct (norm_char c).
Qed.

Lemma drop_underscores_none (s : str) :
  forall prev, prev <> chr "_" -> (forall c, In c s -> c <> chr "_") ->
               drop_underscores prev s = Some s.
Proof.
  induction s as [|c s IH]; simpl; intros prev Hp H.
  - now apply N.eqb_neq in Hp as ->.
  - assert (Hc : c <> chr "_") by (apply H; now left).
    apply N.eqb_neq in Hp as ->. apply N.eqb_neq in Hc as E. rewrite E.
    simpl. rewrite IH; [reflexivity | now apply N.eqb_neq |].
    intros d Hd. apply H. now right.
Qed.

Lemma float_text_plain `{U : unicode_db} (s : str) :
  forallb plain_char s = true -> float_text s = Some s.
Proof.
  intros H. rewrite forallb_forall in H.
  assert (F : forall c, In c s ->
                        (c <? 128) = true /\ isspace c = false
                        /\ c_isspace c = false /\ norm_char c = Some c
                        /\ c <> chr "_")
    by (intros c Hc; apply plain_char_facts; auto).
  unfold float_text.
  assert (M : mapM ascii_of_codepoint s = Some s).
  { apply mapM_Some_2. clear H. induction s as [|c s IH]; constructor.
    - unfold ascii_of_codepoint.
      now destruct (F c (or_introl eq_refl)) as (-> & _).
    - apply IH. intros d Hd. apply F. now right. }
  rewrite M. simpl.
  rewrite drop_underscores_none; [|discriminate | intros c Hc; now apply F].
  simpl. rewrite lstrip_by_none, rstrip_by_none; [reflexivity | |];
    intros c Hc; now apply F.
Qed.

Lemma span_all (p : codepoint -> bool) (s : str) :
  forallb p s = true -> span p s = (s, []).
Proof.
  induction s as [|c s IH]; simpl; [reflexivity|].
  intros [-> H]%andb_true_iff. now rewrite IH.
Qed.

Lemma read_sign_digit (c : codepoint) (s : str) :
  is_digit c = true -> read_sign (c :: s) = (false, c :: s).
Proof.
  intros H. simpl.
  destruct (N.eqb_spec c (chr "-")) as [-> | _]; [discriminate|].
  destruct (N.eqb_spec c (chr "+")) as [-> | _]; [discriminate|].
  reflexivity.
Qed.

Lemma parse_decimal_digits (neg : bool) (ds : str) :
  ds <> [] -> forallb is_digit ds = true ->
  parse_decimal ((if neg then [chr "-"] else []) ++ ds)
  = Some {| dec_neg := neg; dec_digits := digits_value ds; dec_exp10 := 0 |}.
Proof.
  intros Hne Hd. unfold parse_decimal.
  assert (R : read_sign ((if neg then [chr "-"] else []) ++ ds) = (neg, ds)).
  { destruct neg; [reflexivity|]. destruct ds as [|c ds]; [contradiction|].
    apply read_sign_digit. simpl in Hd. now apply andb_true_iff in Hd. }
  rewrite R, (span_all _ _ Hd), app_nil_r.
  destruct ds; [contradiction | reflexivity].
Qed.

Lemma str_of_nat_not_nil (n : nat) : str_of_nat n <> [].
Proof.
  unfold str_of_nat, NilZero.string_of_uint.
  destruct n; [discriminate|].
  pose proof (DecimalNat.Unsigned.of_to (S n)) as E.
  destruct (Nat.to_uint (S n)); try discriminate.
Qed.

(** [float()] of the decimal writing of an integer below 2^53 in magnitude
    is that integer, exactly. *)
Lemma py_float_integer `{U : unicode_db} (neg : bool) (n : nat) :
  (Z.of_nat n < 2 ^ 53)%Z ->
  exists x,
    py_float ((if neg then [chr "-"] else []) ++ str_of_nat n) = Ok x
    /\ float_is_integer x = true
    /\ int_of_float x = Ok (cond_Zopp neg (Z.of_nat n)).
Proof.
  intros Hn. unfold py_float.
  rewrite float_text_plain.
  - rewrite parse_decimal_digits
      by (apply str_of_nat_not_nil || apply str_of_nat_digits).
    rewrite digits_value_str_of_nat.
    destruct n as [|n].
    + exists (S754_zero neg). repeat split. now destruct neg.
    + change (Z.of_nat (S n)) with (Z.pos (Pos.of_succ_nat n)) in *.
      destruct (float_of_positive_int neg (Pos.of_succ_nat n) Hn)
        as (x & -> & Hi & Hv).
      now exists x.
  - rewrite forallb_app. apply andb_true_iff. split; [now destruct neg|].
    pose proof (str_of_nat_digits n) as D. rewrite forallb_forall in *.
    intros c Hc. unfold plain_char. now rewrite (D c Hc).
Qed.

Lemma parse_number_integer_text `{U : unicode_db}
    (t : str) (neg : bool) (n : nat) :
  (forall c, In c t -> isspace c = false) ->
  normalize_number t = (if neg then [chr "-"] else []) ++ str_of_nat n ->
  (Z.of_nat n < 2 ^ 53)%Z ->
  parse_number (Some t) = Ok (Some (PyInt (cond_Zopp neg (Z.of_nat n)))).
Proof.
  intros Hsp Hn Hlt. unfold parse_number. unfold strip.
  rewrite lstrip_by_none, rstrip_by_none by exact Hsp.
  destruct t as [|c t].
  { exfalso. apply (str_of_nat_not_nil n).
    change (normalize_number []) with (@nil codepoint) in Hn.
    now destruct neg. }
  cbn [is_empty]. rewrite Hn.
  destruct (py_float_integer neg n Hlt) as (x & -> & -> & ->). reflexivity.
Qed.

Lemma str_of_Z_sign (z : Z) :
  str_of_Z z
  = (if (z <? 0)%Z then [chr "-"] else []) ++ str_of_nat (Z.to_nat (Z.abs z)).
Proof.
  unfold str_of_Z. destruct (Z.ltb_spec z 0); simpl; do 2 f_equal; lia.
Qed.

Lemma str_of_Z_plain (z : Z) : forallb plain_char (str_of_Z z) = true.
Proof.
  rewrite str_of_Z_sign, forallb_app. apply andb_true_iff.
  split; [now destruct (z <? 0)%Z|].
  pose proof (str_of_nat_digits (Z.to_nat (Z.abs z))) as D.
  rewrite forallb_forall in *. intros c Hc. unfold plain_char.
  now rewrite (D c Hc).
Qed.

(** X16: an integer below 2^53 in magnitude, written in decimal, is read
    back by [parse_number] as that integer, exactly; so it is with "°C"
    behind it. *)
Theorem parse_number_of_integer `{U : unicode_db} (z : Z) :
  (- 2 ^ 53 < z < 2 ^ 53)%Z ->
  parse_number (Some (str_of_Z z)) = Ok (Some (PyInt z))
  /\ parse_number (Some (str_of_Z z ++ DEGREE_SIGN :: lit "C"))
     = Ok (Some (PyInt z)).
Proof.
  intros Hz.
  pose proof (str_of_Z_plain z) as P. rewrite forallb_forall in P.
  assert (F : forall c, In c (str_of_Z z) ->
                        isspace c = false /\ norm_char c = Some c).
  { intros c Hc. destruct (plain_char_facts c (P c Hc)) as (_ & ? & _ & ? & _).
    auto. }
  assert (N : normalize_number (str_of_Z z) = str_of_Z z)
    by (apply normalize_number_fixed; intros c Hc; now apply F).
  assert (V : cond_Zopp (z <? 0)%Z (Z.of_nat (Z.to_nat (Z.abs z))) = z).
  { destruct (Z.ltb_spec z 0); simpl; lia. }
  rewrite <- V at 2 4. split; apply parse_number_integer_text; try lia.
  - intros c Hc. now apply F.
  - now rewrite N, str_of_Z_sign.
  - intros c [Hc | [<- | [<- | []]]]%in_app_iff; [now apply F | reflexivity ..].
  - rewrite normalize_number_app, N, app_nil_r. apply str_of_Z_sign.
Qed.

Lemma parse_number_of_integer_witness :
  parse_number (U := latin1_db) (Some (lit "-12")) = Ok (Some (PyInt (-12)))
  /\ parse_number (U := latin1_db) (Some (lit "-12" ++ DEGREE_SIGN :: lit "C"))
     = Ok (Some (PyInt (-12))).
Proof.
  apply (parse_number_of_integer (U := latin1_db) (-12)). lia.
Defined.

(** ** Degree signs and the letters C and c *)

Lemma normalize_number_remove (a : codepoint) (s : str) :
  norm_char a = None ->
  normalize_number (remove_char a s) = normalize_number s.
Proof.
  intros Ha. induction s as [|c s IH]; [reflexivity|].
  unfold remove_char in *. simpl List.filter.
  destruct (N.eqb_spec c a) as [-> | _]; simpl negb; cbv iota.
  - now rewrite normalize_number_cons, Ha.
  - now rewrite !normalize_number_cons, IH.
Qed.

Lemma strip_no_space (s : str) :
  (forall c, In c s -> isspace c = false) -> strip s = s.
Proof.
  intros H. unfold strip. now rewrite lstrip_by_none, rstrip_by_none.
Qed.

Lemma py_float_empty `{U : unicode_db} : py_float [] = Raise ValueError.
Proof. reflexivity. Qed.

(** X18: in a text without white space, degree signs and the letters C and
    c are ignored by [parse_number] wherever they stand: removing all
    occurrences of one of them does not change the result. *)
Theorem parse_number_ignores_celsius `{U : unicode_db} (a : codepoint) (s : str) :
  In a CELSIUS_MARKS ->
  (forall c, In c s -> isspace c = false) ->
  parse_number (Some (remove_char a s)) = parse_number (Some s).
Proof.
  intros Ha Hs.
  assert (Hn : norm_char a = None)
    by (destruct Ha as [<- | [<- | [<- | []]]]; reflexivity).
  assert (Hr : forall c, In c (remove_char a s) -> isspace c = false).
  { intros c Hc. apply Hs. unfold remove_char in Hc.
    now apply filter_In in Hc. }
  pose proof (normalize_number_remove a s Hn) as N.
  unfold parse_number. rewrite (strip_no_space s Hs), (strip_no_space _ Hr), N.
  destruct (remove_char a s) as [|c t] eqn:E; destruct s as [|d s'];
    simpl is_empty; cbv iota; try reflexivity; try discriminate E.
  change (normalize_number []) with (@nil codepoint) in N.
  now rewrite <- N, py_float_empty.
Qed.

Lemma parse_number_ignores_celsius_witness :
  parse_number (U := latin1_db) (Some (lit "-2,5C")) = Ok (Some (PyFloat
    (S754_finite true (5 * 2 ^ 50) (-51))))
  /\ parse_number (U := latin1_db) (Some (lit "1c2")) = Ok (Some (PyInt 12)).
Proof.
  rewrite <- (parse_number_ignores_celsius (U := latin1_db) (chr "C") (lit "-2,5C")),
          <- (parse_number_ignores_celsius (U := latin1_db) (chr "c") (lit "1c2")).
  - split; reflexivity.
  - cbv [In CELSIUS_MARKS]. tauto.
  - intros c Hc. vm_compute in Hc.
    repeat (destruct Hc as [<- | Hc]; [reflexivity|]). contradiction.
  - cbv [In CELSIUS_MARKS]. tauto.
  - intros c Hc. vm_compute in Hc.
    repeat (destruct Hc as [<- | Hc]; [reflexivity|]). contradiction.
Defined.

(** ** The product name *)

Lemma trimmed_head (c : codepoint) (t : str) :
  is_trimmed (c :: t) -> isspace c = false.
Proof.
  unfold is_trimmed, strip. intros H.
  pose proof (lstrip_by_head isspace (c :: t)) as L.
  destruct (lstrip_by isspace (c :: t)) as [|d u] eqn:E; [discriminate H|].
  rewrite (rstrip_by_cons isspace d u L) in H. now injection H as ->.
Qed.

Lemma trimmed_last (s : str) (c : codepoint) :
  is_trimmed (s ++ [c]) -> isspace c = false.
Proof.
  unfold is_trimmed, strip, rstrip_by. intros H.
  apply (f_equal (@rev _)) in H. rewrite rev_involutive, rev_app_distr in H.
  simpl in H.
  pose proof (lstrip_by_head isspace (rev (lstrip_by isspace (s ++ [c])))) as L.
  now rewrite H in L.
Qed.

Lemma rstrip_by_last (sp : codepoint -> bool) (s : str) (c : codepoint) :
  sp c = false -> rstrip_by sp (s ++ [c]) = s ++ [c].
Proof.
  intros Hc. unfold rstrip_by. rewrite rev_unit. simpl lstrip_by.
  rewrite Hc. simpl rev. now rewrite rev_involutive.
Qed.

Lemma strip_app_trimmed (a b : str) :
  a <> [] -> b <> [] -> is_trimmed a -> is_trimmed b ->
  strip (a ++ lit " " ++ b) = a ++ lit " " ++ b.
Proof.
  intros Ha Hb Ta Tb. generalize (lit " "). intros sep.
  destruct a as [|c a]; [contradiction|].
  destruct (exists_last Hb) as (b' & d & ->).
  pose proof (trimmed_head c a Ta) as Hc.
  pose proof (trimmed_last b' d Tb) as Hd.
  unfold strip.
  assert (L : lstrip_by isspace ((c :: a) ++ sep ++ b' ++ [d])
              = (c :: a) ++ sep ++ b' ++ [d])
    by (simpl; now rewrite Hc).
  rewrite L.
  replace ((c :: a) ++ sep ++ b' ++ [d])
    with (((c :: a) ++ sep ++ b') ++ [d])
    by (now rewrite <- !app_assoc).
  now apply rstrip_by_last.
Qed.

Lemma strip_brand_and_code (brand code : str) :
  is_trimmed brand -> is_trimmed code ->
  strip (brand ++ lit " " ++ code) = brand_and_code brand code.
Proof.
  intros Tb Tc. unfold brand_and_code.
  destruct code as [|c code]; simpl is_empty; cbv iota.
  - rewrite <- (app_nil_l (brand ++ lit " " ++ [])), app_nil_r.
    rewrite (strip_padded [] brand (lit " ")); [exact Tb | reflexivity ..].
  - destruct brand as [|b brand]; simpl is_empty; cbv iota.
    + replace ([] ++ lit " " ++ c :: code)
        with (lit " " ++ (c :: code) ++ []) by now rewrite app_nil_r.
      rewrite strip_padded; [exact Tc | reflexivity ..].
    + apply strip_app_trimmed; auto; discriminate.
Qed.

(** X19: the product name of a record is the trimmed "product_name" cell
    when that is not empty; otherwise it is the brand alone when the code is
    empty, the code alone when the brand is empty, and brand, a space and
    code when neither is. *)
Theorem record_product_name `{U : unicode_db}
    (r : row) (n : nat) (p : product) (product_name : str) :
  process_row r n = Ok (Some p) ->
  method_strip (get_or_empty r "product_name") = Ok product_name ->
  p_product p = if is_empty product_name
                then brand_and_code (p_brand p) (p_code p)
                else product_name.
Proof.
  intros H Hpn. apply process_row_record in H.
  destruct H as (brand & line & code & pn & ty & image & t1 & t2 & t3 & t4
                 & t5 & t6 & priority & Eb & El & Ec & En & Et & Ei & _ & ->).
  cbn [p_product p_brand p_code].
  assert (pn = product_name) as -> by congruence.
  destruct product_name as [|c s]; simpl; [|reflexivity].
  apply strip_brand_and_code; eauto using method_strip_trimmed.
Qed.

Lemma record_product_name_witness :
  exists p, process_row (U := latin1_db) sample_row 0 = Ok (Some p)
            /\ p_product p = lit "Swix VP30".
Proof.
  destruct (process_row (U := latin1_db) sample_row 0) as [[p|]|e] eqn:E;
    try (vm_compute in E; discriminate).
  exists p. split; [reflexivity|].
  rewrite (record_product_name sample_row 0 p [] E eq_refl).
  vm_compute in E. injection E as <-. reflexivity.
Defined.
